(** * inject-body: the streaming interception engine of [index.js]

    A shallow embedding of [main] (the closure that wraps a response's
    [setHeader], [write] and [end]) and of the exported function and
    class in front of it, together with the properties the specification
    states about them and further properties read off the code.

    Conventions of the model:
    - a [Buffer] is a list of bytes; a JavaScript string that carries
      body text is a list of UTF-16 code units ([JSString]); header names,
      header values and encoding names are Rocq strings;
    - the closure variables of [main] ([buffers], [willEnd], [len],
      [isHtml], [parser]) and the wrapped response (its header store, the
      calls made on the original [write] and [end], the errors emitted on
      it, the callbacks the wrapper invokes itself) form one [State] record
      that every operation passes on;
    - the npm collaborators ([htmlparser2], [content-type], [crypto],
      [util.inspect], the StringToNumber conversion) are the fields of the
      class [Externals]; the development is parametric in them and a sample
      instance is used to run concrete traces;
    - integer-valued JavaScript numbers are integers of [Z] (exact below
      2^53);
    - [res.emit('error', e)] records [e] and returns: an error listener
      is subscribed. In the wrappers the emit is the last thing done
      before returning, and so is the call of a write callback; what a
      listener or a callback does to the response is therefore the same
      as further wrapped calls made once the call has returned, and is
      written as such in a trace. *)

From Stdlib Require Import ZArith NArith Bool Ascii String List Lia.
From Stdlib Require Import DecimalString.
From stdpp Require Import base option list strings gmap.

Import ListNotations.
Local Open Scope string_scope.
Local Open Scope list_scope.

(** ** Buffers and JavaScript strings *)

Definition Buffer := list Byte.byte.
Definition JSString := list N.

Definition byte_of_N (n : N) : Byte.byte :=
  match Byte.of_N (n mod 256) with
  | Some b => b
  | None => Byte.x00
  end.

(** [Buffer.concat(list, totalLength)] of Node: an empty list gives the
    empty buffer; otherwise the buffers are copied one after the other into
    a buffer of [totalLength] bytes, which truncates what does not fit and
    leaves zeros where nothing was copied. *)
Definition Buffer_concat (l : list Buffer) (totalLength : nat) : Buffer :=
  match l with
  | [] => []
  | _ => take totalLength (concat l ++ repeat Byte.x00 (totalLength - length (concat l)))
  end.

(** *** UTF-8, as [buf.toString()] and [Buffer.from(string)] use it *)

Local Open Scope N_scope.

Record Utf8Dec := mkDec { dec_cp : N; dec_need : nat; dec_lo : N; dec_hi : N }.

Definition dec_idle : Utf8Dec := mkDec 0 0 0x80 0xBF.

(** First byte of a sequence. [None]: the byte cannot start a sequence. *)
Definition dec_lead (b : N) : option (N + Utf8Dec) :=
  if b <=? 0x7F then Some (inl b)
  else if (0xC2 <=? b) && (b <=? 0xDF) then Some (inr (mkDec (b - 0xC0) 1 0x80 0xBF))
  else if (0xE0 <=? b) && (b <=? 0xEF) then
    Some (inr (mkDec (b - 0xE0) 2 (if b =? 0xE0 then 0xA0 else 0x80)
                                  (if b =? 0xED then 0x9F else 0xBF)))
  else if (0xF0 <=? b) && (b <=? 0xF4) then
    Some (inr (mkDec (b - 0xF0) 3 (if b =? 0xF0 then 0x90 else 0x80)
                                  (if b =? 0xF4 then 0x8F else 0xBF)))
  else None.

(** Code points of a byte sequence; every ill-formed part becomes U+FFFD. *)
Fixpoint utf8_code_points (d : Utf8Dec) (bs : Buffer) : list N :=
  match bs with
  | [] => match dec_need d with O => [] | S _ => [0xFFFD] end
  | b :: rest =>
      let n := Byte.to_N b in
      let fresh :=
        match dec_lead n with
        | Some (inl cp) => cp :: utf8_code_points dec_idle rest
        | Some (inr d') => utf8_code_points d' rest
        | None => 0xFFFD :: utf8_code_points dec_idle rest
        end in
      match dec_need d with
      | O => fresh
      | S k =>
          if (dec_lo d <=? n) && (n <=? dec_hi d) then
            let cp := dec_cp d * 64 + (n - 0x80) in
            match k with
            | O => cp :: utf8_code_points dec_idle rest
            | S _ => utf8_code_points (mkDec cp k 0x80 0xBF) rest
            end
          else 0xFFFD :: fresh
      end
  end.

Definition utf16_units (cp : N) : list N :=
  if cp <? 0x10000 then [cp]
  else [0xD800 + (cp - 0x10000) / 0x400; 0xDC00 + (cp - 0x10000) mod 0x400].

(** [buf.toString()] *)
Definition toString (b : Buffer) : JSString :=
  concat (map utf16_units (utf8_code_points dec_idle b)).

Definition is_lead_surrogate (u : N) : bool := (0xD800 <=? u) && (u <=? 0xDBFF).
Definition is_trail_surrogate (u : N) : bool := (0xDC00 <=? u) && (u <=? 0xDFFF).

Definition utf8_bytes (cp : N) : Buffer :=
  if cp <? 0x80 then [byte_of_N cp]
  else if cp <? 0x800 then [byte_of_N (0xC0 + cp / 0x40); byte_of_N (0x80 + cp mod 0x40)]
  else if cp <? 0x10000 then
    [byte_of_N (0xE0 + cp / 0x1000); byte_of_N (0x80 + (cp / 0x40) mod 0x40);
     byte_of_N (0x80 + cp mod 0x40)]
  else
    [byte_of_N (0xF0 + cp / 0x40000); byte_of_N (0x80 + (cp / 0x1000) mod 0x40);
     byte_of_N (0x80 + (cp / 0x40) mod 0x40); byte_of_N (0x80 + cp mod 0x40)].

(** [Buffer.from(string)]: a surrogate without its partner becomes U+FFFD. *)
Fixpoint Buffer_from_string (s : JSString) : Buffer :=
  match s with
  | [] => []
  | u :: rest =>
      if is_lead_surrogate u then
        match rest with
        | v :: rest' =>
            if is_trail_surrogate v
            then utf8_bytes (0x10000 + (u - 0xD800) * 0x400 + (v - 0xDC00)) ++ Buffer_from_string rest'
            else utf8_bytes 0xFFFD ++ Buffer_from_string rest
        | [] => utf8_bytes 0xFFFD
        end
      else if is_trail_surrogate u then utf8_bytes 0xFFFD ++ Buffer_from_string rest
      else utf8_bytes u ++ Buffer_from_string rest
  end.

Local Close Scope N_scope.

(** Does the string stop in the middle of a surrogate pair? *)
Definition ends_in_lead (s : JSString) : bool :=
  match last s with
  | Some u => is_lead_surrogate u
  | None => false
  end.

(** A code point that is not the first half of a surrogate pair. *)
Definition no_lead (cp : N) : Prop := (cp < 0xD800 \/ 0xDBFF < cp)%N.

(** Whatever continuation bytes the decoder still accepts, the code
    point it ends with is not the first half of a pair. *)
Fixpoint completes (need : nat) (cp lo hi : N) : Prop :=
  match need with
  | O => no_lead cp
  | S k => forall n, (lo <= n <= hi)%N -> completes k (cp * 64 + (n - 0x80))%N 0x80%N 0xBF%N
  end.

(** Literals for the examples: the bytes of a Rocq string, and the
    JavaScript string those bytes spell in UTF-8. *)
Definition bytes (s : string) : Buffer := list_byte_of_string s.
Definition text (s : string) : JSString := toString (bytes s).

(** ** Values that cross the wrapped interface *)

(** A header value as [setHeader] accepts it. *)
Inductive HeaderValue :=
| HStr (s : string)
| HNum (z : Z)
| HArr (l : list string).

(** What [Number(v)] can be for the code: an integer, or anything else
    (a fraction, NaN, an infinity). *)
Inductive JSNumber :=
| NInt (z : Z)
| NOther.

(** The first argument of [write]: a buffer or a string. *)
Inductive Data :=
| DBuf (b : Buffer)
| DStr (s : JSString).

(** The arguments after the first one: an encoding name, a callback
    (named by a number) or [undefined]. *)
Inductive Arg :=
| AStr (s : string)
| AFn (f : nat)
| AUndef.

(** The first argument of [end]. *)
Inductive EndArg :=
| ENone
| EData (d : Data)
| EFn (f : nat).

(** A call on the original (bound) [write] or [end]. *)
Inductive Downstream :=
| DWrite (data : Buffer) (rest : list Arg)
| DEnd (data : Buffer) (rest : list Arg).

(** How a wrapped call comes back to its caller. *)
Inductive Completion :=
| Returned
| Thrown (e : string).

(** One [onopentag] callback of the tokenizer: the tag name and the value
    of [parser.endIndex] while the callback runs. *)
Record OpenTag := mkOpenTag { tagName : string; endIndex : nat }.

Global Instance HeaderValue_eq_dec : EqDecision HeaderValue.
Proof. solve_decision. Defined.

Global Instance Arg_eq_dec : EqDecision Arg.
Proof. solve_decision. Defined.

(** ** Small pieces of the JavaScript runtime *)

Definition lower_ascii (c : ascii) : ascii :=
  let n := nat_of_ascii c in
  if (65 <=? n)%nat && (n <=? 90)%nat then ascii_of_nat (n + 32) else c.

(** [s.toLowerCase()] on the ASCII strings used for header names. *)
Fixpoint toLowerCase (s : string) : string :=
  match s with
  | EmptyString => EmptyString
  | String c r => String (lower_ascii c) (toLowerCase r)
  end.

Definition decimal (z : Z) : string := NilZero.string_of_int (Z.to_int z).

Fixpoint join (sep : string) (l : list string) : string :=
  match l with
  | [] => ""
  | [x] => x
  | x :: r => x ++ sep ++ join sep r
  end.

Fixpoint matches_somewhere (pat s : string) : bool :=
  String.prefix pat s ||
  match s with
  | EmptyString => false
  | String _ r => matches_somewhere pat r
  end.

(** [/utf-?8/ui.test(encoding)] *)
Definition utf8_regex_test (encoding : string) : bool :=
  matches_somewhere "utf8" (toLowerCase encoding) ||
  matches_somewhere "utf-8" (toLowerCase encoding).

Definition string_eqb (a b : string) : bool := bool_decide (a = b).

Definition TMP_HEADER_NAME : string := "nodejs-inject-body-temporary-header-name".

(** ** The collaborators *)

Class Externals := {
  (** [Number(s)] on a string *)
  StringToNumber : string -> JSNumber;
  (** [util.inspect(v)] *)
  inspect : HeaderValue -> string;
  (** [parse(s).type] of the content-type package; [None] when it throws *)
  parse_type : string -> option string;
  (** [createHash('md5').update(buf).digest('base64')] *)
  md5Base64 : Buffer -> string;
  (** the tokenizer of htmlparser2, seen through its [onopentag] callbacks *)
  ParserState : Type;
  Parser_new : ParserState;
  (** [parser.write(chunk)]: the next state and the callbacks it fires *)
  Parser_write : ParserState -> Buffer -> ParserState * list OpenTag;
  (** [parser.parseComplete(chunk)]: the callbacks fired before [onend] *)
  Parser_parseComplete : ParserState -> Buffer -> list OpenTag
}.

Section InjectBody.

Context `{Ext : Externals}.

(** ** The state of one intercepted response *)

Record State := mkState {
  (** closure variables of [main] *)
  buffers : list Buffer;
  willEnd : bool;
  len : nat;
  isHtml : bool;
  parser : option ParserState;
  (** the response object behind the wrappers *)
  headers : gmap string HeaderValue;
  sent : list Downstream;
  emitted : list string;
  called : list nat;
  (** ghost: how many times the splice of [onopentag] ran *)
  injections : nat
}.

Definition with_buffers (v : list Buffer) (st : State) : State :=
  mkState v (willEnd st) (len st) (isHtml st) (parser st)
          (headers st) (sent st) (emitted st) (called st) (injections st).
Definition with_willEnd (v : bool) (st : State) : State :=
  mkState (buffers st) v (len st) (isHtml st) (parser st)
          (headers st) (sent st) (emitted st) (called st) (injections st).
Definition with_len (v : nat) (st : State) : State :=
  mkState (buffers st) (willEnd st) v (isHtml st) (parser st)
          (headers st) (sent st) (emitted st) (called st) (injections st).
Definition with_isHtml (v : bool) (st : State) : State :=
  mkState (buffers st) (willEnd st) (len st) v (parser st)
          (headers st) (sent st) (emitted st) (called st) (injections st).
Definition with_parser (v : option ParserState) (st : State) : State :=
  mkState (buffers st) (willEnd st) (len st) (isHtml st) v
          (headers st) (sent st) (emitted st) (called st) (injections st).
Definition with_headers (v : gmap string HeaderValue) (st : State) : State :=
  mkState (buffers st) (willEnd st) (len st) (isHtml st) (parser st)
          v (sent st) (emitted st) (called st) (injections st).
Definition with_sent (v : list Downstream) (st : State) : State :=
  mkState (buffers st) (willEnd st) (len st) (isHtml st) (parser st)
          (headers st) v (emitted st) (called st) (injections st).
Definition with_emitted (v : list string) (st : State) : State :=
  mkState (buffers st) (willEnd st) (len st) (isHtml st) (parser st)
          (headers st) (sent st) v (called st) (injections st).
Definition with_called (v : list nat) (st : State) : State :=
  mkState (buffers st) (willEnd st) (len st) (isHtml st) (parser st)
          (headers st) (sent st) (emitted st) v (injections st).
Definition with_injections (v : nat) (st : State) : State :=
  mkState (buffers st) (willEnd st) (len st) (isHtml st) (parser st)
          (headers st) (sent st) (emitted st) (called st) v.

(** ** The original methods of the response *)

(** Node keeps headers under their lower-case name. *)
Definition setHeader (name : string) (value : HeaderValue) (st : State) : State :=
  with_headers (<[toLowerCase name := value]> (headers st)) st.

Definition hasHeader (name : string) (st : State) : bool :=
  bool_decide (is_Some (headers st !! toLowerCase name)).

Definition getHeader (name : string) (st : State) : option HeaderValue :=
  headers st !! toLowerCase name.

Definition write (data : Buffer) (rest : list Arg) (st : State) : State :=
  with_sent (sent st ++ [DWrite data rest]) st.

Definition end_ (data : Buffer) (rest : list Arg) (st : State) : State :=
  with_sent (sent st ++ [DEnd data rest]) st.

Definition emit_error (message : string) (st : State) : State :=
  with_emitted (emitted st ++ [message]) st.

(** ** The closure of [main] *)

Variable injectChunk : Buffer.
Variable etag : option string.

(** [etag || md5Base64(injectChunk)] *)
Definition digest : string :=
  match etag with
  | Some (String c r) => String c r
  | _ => md5Base64 injectChunk
  end.

(** A value inside a template literal. *)
Definition template (v : HeaderValue) : string :=
  match v with
  | HStr s => s
  | HNum z => decimal z
  | HArr l => join "," l
  end.

Definition Number (v : HeaderValue) : JSNumber :=
  match v with
  | HStr s => StringToNumber s
  | HNum z => NInt z
  | HArr l => StringToNumber (join "," l)
  end.

(** [parser.end()]: the tokenizer finishes and [onend] clears [parser]. *)
Definition parser_end (st : State) : State := with_parser None st.

Definition onopentag (st : State) (tag : OpenTag) : State :=
  match parser st with
  | None => st
  | Some _ =>
      if negb (string_eqb (tagName tag) "body") then st
      else if negb (isHtml st) then parser_end st
      else
        let insertionIndex := (endIndex tag + 1)%nat in
        let html := toString (Buffer_concat (buffers st) (len st)) in
        let st1 :=
          with_buffers
            [Buffer_from_string
               (take insertionIndex html ++ toString injectChunk ++ drop insertionIndex html)]
            st in
        let st2 := with_len (len st1 + length injectChunk)%nat st1 in
        parser_end (with_injections (S (injections st2)) st2)
  end.

Definition RFC7230_message (v : HeaderValue) : string :=
  "According to RFC7230, Content-Length header must be a non-negative integer https://tools.ietf.org/html/rfc7230#section-3.3.2, but it was "
  ++ inspect v ++ ".".

(** The sum and the digits it prints as are those of the code as long
    as the sum is below 2^53: from there on the code's sum is a rounded
    double, and from 1e21 on it prints with an exponent. Every statement
    below about the value that is set carries that bound. *)
Definition adjustContentLength (originalContentLengthHeaderValue : HeaderValue)
    (st : State) : State :=
  match Number originalContentLengthHeaderValue with
  | NInt originalContentLength =>
      if (originalContentLength <? 0)%Z
      then emit_error (RFC7230_message originalContentLengthHeaderValue) st
      else if isHtml st
      then setHeader "content-length"
             (HStr (decimal (originalContentLength + Z.of_nat (length injectChunk)))) st
      else st
  | NOther => emit_error (RFC7230_message originalContentLengthHeaderValue) st
  end.

(** [main(res, injectChunk, etag)] up to the point where the three methods
    are replaced; [res_headers] are the headers the response already has. *)
Definition main (res_headers : gmap string HeaderValue) : State :=
  let st0 :=
    mkState [] false 0 false (Some Parser_new)
      (delete TMP_HEADER_NAME (<[TMP_HEADER_NAME := HStr "1"]> res_headers))
      [] [] [] 0 in
  let st1 :=
    if hasHeader "content-type" st0 then
      let st := with_isHtml (bool_decide (getHeader "content-type" st0 = Some (HStr "text/html"))) st0 in
      match getHeader "content-length" st with
      | Some v => adjustContentLength v st
      | None => st
      end
    else st0 in
  match getHeader "etag" st1 with
  | Some v => if isHtml st1 then setHeader "etag" (HStr (template v ++ digest)) st1 else st1
  | None => st1
  end.

(** *** [res.setHeader] *)

Definition res_setHeader (headerName : string) (headerValue : HeaderValue)
    (st : State) : State * Completion :=
  match headerValue with
  | HArr _ => (setHeader headerName headerValue st, Returned)
  | _ =>
      let lowerCaseHeaderName := toLowerCase headerName in
      if string_eqb lowerCaseHeaderName "content-length" then
        (adjustContentLength headerValue st, Returned)
      else if isHtml st && string_eqb lowerCaseHeaderName "etag" then
        (setHeader headerName (HStr (template headerValue ++ digest)) st, Returned)
      else if string_eqb lowerCaseHeaderName "content-type" then
        match headerValue with
        | HStr s =>
            match parse_type s with
            | None => (st, Thrown "TypeError")
            | Some type =>
                if string_eqb type "text/html"
                then (setHeader headerName headerValue (with_isHtml true st), Returned)
                else
                  match parser st with
                  | None => (st, Thrown "TypeError")
                  | Some _ => (setHeader headerName headerValue (parser_end st), Returned)
                  end
            end
        | _ => (st, Thrown "TypeError")
        end
      else (setHeader headerName headerValue st, Returned)
  end.

(** *** [res.write] *)

(** The encoding the guard of [write] refuses, if it refuses one. *)
Definition refused_encoding (st : State) (restArgs : list Arg) : option string :=
  match restArgs with
  | AStr encoding :: _ =>
      if isHtml st && negb (string_eqb encoding "") && negb (utf8_regex_test encoding)
      then Some encoding else None
  | _ => None
  end.

Definition encoding_message (encoding : string) : string :=
  "HTML must be UTF-8 encoded https://github.com/w3c/html/pull/1273, but encoded in "
  ++ encoding ++ ".".

Definition to_buffer (data : Data) : Buffer :=
  match data with
  | DBuf b => b
  | DStr s => Buffer_from_string s
  end.

(** The last statement group of [write], reached when [willEnd] holds. *)
Definition finish (restArgs : list Arg) (st : State) : State :=
  match buffers st with
  | [b] => end_ b restArgs st
  | _ => end_ (Buffer_concat (buffers st) (len st)) restArgs st
  end.

Definition call_last (restArgs : list Arg) (st : State) : State :=
  match last restArgs with
  | Some (AFn f) => with_called (called st ++ [f]) st
  | _ => st
  end.

(** [len += data.length; buffers.push(data);] *)
Definition keep (data : Buffer) (st : State) : State :=
  with_buffers (buffers st ++ [data]) (with_len (len st + length data) st).

Definition res_write (data : Data) (restArgs : list Arg) (st : State) : State :=
  match refused_encoding st restArgs with
  | Some encoding => emit_error (encoding_message encoding) st
  | None =>
      let data := to_buffer data in
      match parser st with
      | Some p =>
          let st1 := keep data st in
          if willEnd st1 then
            let st2 := foldl onopentag st1 (Parser_parseComplete p data) in
            finish restArgs (parser_end st2)
          else
            let '(p', tags) := Parser_write p data in
            let st2 := foldl onopentag (with_parser (Some p') st1) tags in
            call_last restArgs st2
      | None =>
          if negb (willEnd st) && negb (bool_decide (buffers st = [])) then
            write (Buffer_concat (buffers st ++ [data]) (len st + length data)) restArgs
                  (with_buffers [] st)
          else if willEnd st then
            finish restArgs (with_buffers (buffers st ++ [data]) st)
          else write data restArgs st
      end
  end.

(** *** [res.end] *)

Definition res_end (data : EndArg) (restArgs : list Arg) (st : State) : State :=
  let st := with_willEnd true st in
  match data with
  | EFn f => res_write (DBuf []) [AFn f] st
  | EData (DStr []) => res_write (DBuf []) restArgs st
  | EData d => res_write d restArgs st
  | ENone => res_write (DBuf []) restArgs st
  end.

(** ** Traces of wrapped calls *)

Inductive Op :=
| SetHeader (headerName : string) (headerValue : HeaderValue)
| Write (data : Data) (restArgs : list Arg)
| End (data : EndArg) (restArgs : list Arg).

Definition step (st : State) (op : Op) : State :=
  match op with
  | SetHeader n v => fst (res_setHeader n v st)
  | Write d r => res_write d r st
  | End d r => res_end d r st
  end.

Definition run (st : State) (ops : list Op) : State := foldl step st ops.

(** All bytes handed to the original [write] and [end], in order. *)
Definition delivered (st : State) : Buffer :=
  concat (map (fun c => match c with DWrite d _ => d | DEnd d _ => d end) (sent st)).

Definition is_end (c : Downstream) : bool :=
  match c with DEnd _ _ => true | DWrite _ _ => false end.

Definition end_calls (st : State) : list Downstream := List.filter is_end (sent st).

Definition pending_bytes (st : State) : nat := length (concat (buffers st)).


Definition is_array (v : HeaderValue) : bool :=
  match v with HArr _ => true | _ => false end.

Definition is_write_or_end (op : Op) : bool :=
  match op with SetHeader _ _ => false | _ => true end.

(** The callbacks fired by the tokenizer while [res.write] feeds it. *)
Definition fired (st : State) (p : ParserState) (data : Buffer) : list OpenTag :=
  if willEnd st then Parser_parseComplete p data else snd (Parser_write p data).

(** [len] measures the backlog as long as the locator runs. *)
Definition measured (st : State) : Prop :=
  is_Some (parser st) -> len st = pending_bytes st.

(** [tag] is the first body tag among the callbacks [tags]. *)
Definition first_body (tags : list OpenTag) (tag : OpenTag) : Prop :=
  exists before after,
    tags = before ++ tag :: after /\ tagName tag = "body" /\
    Forall (fun t => tagName t <> "body") before.

(** The ways through [res.write], one constructor for each. *)
Inductive write_branch (d : Data) (rest : list Arg) (st : State) : State -> Prop :=
| refused e :
    refused_encoding st rest = Some e ->
    write_branch d rest st (emit_error (encoding_message e) st)
| parsing p :
    refused_encoding st rest = None -> parser st = Some p -> willEnd st = false ->
    write_branch d rest st
      (call_last rest
         (foldl onopentag
            (with_parser (Some (fst (Parser_write p (to_buffer d)))) (keep (to_buffer d) st))
            (snd (Parser_write p (to_buffer d)))))
| completing p :
    refused_encoding st rest = None -> parser st = Some p -> willEnd st = true ->
    write_branch d rest st
      (finish rest
         (parser_end
            (foldl onopentag (keep (to_buffer d) st)
               (Parser_parseComplete p (to_buffer d)))))
| flushing :
    refused_encoding st rest = None -> parser st = None -> willEnd st = false ->
    buffers st <> [] ->
    write_branch d rest st
      (write (Buffer_concat (buffers st ++ [to_buffer d]) (len st + length (to_buffer d)))
         rest (with_buffers [] st))
| accumulating :
    refused_encoding st rest = None -> parser st = None -> willEnd st = true ->
    write_branch d rest st (finish rest (with_buffers (buffers st ++ [to_buffer d]) st))
| forwarding :
    refused_encoding st rest = None -> parser st = None -> willEnd st = false ->
    buffers st = [] ->
    write_branch d rest st (write (to_buffer d) rest st).

End InjectBody.

(** ** The exported entry points

    [module.exports] calls [main] without a digest; the function made by
    [new InjectBody(contents)] passes the digest computed once. Their
    checks on the number and the types of the arguments come with the
    values they look at, under "The checks on the arguments". *)

Definition injectBody `{Ext : Externals} (res_headers : gmap string HeaderValue)
    (injectChunk : Buffer) : State :=
  main injectChunk None res_headers.

Definition InjectBody `{Ext : Externals} (injectChunk : Buffer)
    (res_headers : gmap string HeaderValue) : State :=
  main injectChunk (Some (md5Base64 injectChunk)) res_headers.

(** ** A sample set of collaborators

    Executable stand-ins used to run concrete traces: MD5 and Base64 as
    specified (RFC 1321, RFC 4648); a tokenizer that follows the states of
    htmlparser2's [Tokenizer] for plain markup (tags, attributes, closing
    tags, comments, declarations) and leaves out entities, CDATA and the
    raw text of script and style elements; [Number] on optionally signed
    decimal integers and on the empty string; [inspect] on values without
    quotes or escapes; the media type in front of the first semicolon. *)

Module Sample.

Local Open Scope N_scope.

(** *** MD5 and Base64 *)

Definition md5_K : list N :=
  [0xd76aa478; 0xe8c7b756; 0x242070db; 0xc1bdceee; 0xf57c0faf; 0x4787c62a; 0xa8304613; 0xfd469501;
   0x698098d8; 0x8b44f7af; 0xffff5bb1; 0x895cd7be; 0x6b901122; 0xfd987193; 0xa679438e; 0x49b40821;
   0xf61e2562; 0xc040b340; 0x265e5a51; 0xe9b6c7aa; 0xd62f105d; 0x02441453; 0xd8a1e681; 0xe7d3fbc8;
   0x21e1cde6; 0xc33707d6; 0xf4d50d87; 0x455a14ed; 0xa9e3e905; 0xfcefa3f8; 0x676f02d9; 0x8d2a4c8a;
   0xfffa3942; 0x8771f681; 0x6d9d6122; 0xfde5380c; 0xa4beea44; 0x4bdecfa9; 0xf6bb4b60; 0xbebfbc70;
   0x289b7ec6; 0xeaa127fa; 0xd4ef3085; 0x04881d05; 0xd9d4d039; 0xe6db99e5; 0x1fa27cf8; 0xc4ac5665;
   0xf4292244; 0x432aff97; 0xab9423a7; 0xfc93a039; 0x655b59c3; 0x8f0ccc92; 0xffeff47d; 0x85845dd1;
   0x6fa87e4f; 0xfe2ce6e0; 0xa3014314; 0x4e0811a1; 0xf7537e82; 0xbd3af235; 0x2ad7d2bb; 0xeb86d391].

Definition md5_S : list N :=
  [7; 12; 17; 22; 7; 12; 17; 22; 7; 12; 17; 22; 7; 12; 17; 22;
   5; 9; 14; 20; 5; 9; 14; 20; 5; 9; 14; 20; 5; 9; 14; 20;
   4; 11; 16; 23; 4; 11; 16; 23; 4; 11; 16; 23; 4; 11; 16; 23;
   6; 10; 15; 21; 6; 10; 15; 21; 6; 10; 15; 21; 6; 10; 15; 21].

Definition w32 (x : N) : N := x mod 0x100000000.
Definition rotl32 (x s : N) : N := w32 (N.lor (N.shiftl x s) (N.shiftr x (32 - s))).
Definition not32 (x : N) : N := 0xFFFFFFFF - x.

Definition le_bytes (k : nat) (x : N) : list N :=
  map (fun i => (x / 256 ^ N.of_nat i) mod 256) (seq 0 k).

Fixpoint le_word (bs : list N) : N :=
  match bs with
  | [] => 0
  | b :: r => b + 256 * le_word r
  end.

Fixpoint chunks {A} (k : nat) (fuel : nat) (l : list A) : list (list A) :=
  match fuel, l with
  | O, _ => []
  | _, [] => []
  | S f, _ => take k l :: chunks k f (drop k l)
  end.

Definition md5_pad (msg : list N) : list N :=
  let n := N.of_nat (length msg) in
  let zeros := N.to_nat ((119 - n mod 64) mod 64) in
  msg ++ [0x80] ++ repeat 0 zeros ++ le_bytes 8 (8 * n).

Definition md5_round (M : list N) (s : N * N * N * N) (i : nat) : N * N * N * N :=
  let '(A, B, C, D) := s in
  let j := N.of_nat i in
  let '(F, g) :=
    if j <? 16 then (N.lor (N.land B C) (N.land (not32 B) D), j)
    else if j <? 32 then (N.lor (N.land D B) (N.land (not32 D) C), (5 * j + 1) mod 16)
    else if j <? 48 then (N.lxor (N.lxor B C) D, (3 * j + 5) mod 16)
    else (N.lxor C (N.lor B (not32 D)), (7 * j) mod 16) in
  let F' := w32 (F + A + nth i md5_K 0 + nth (N.to_nat g) M 0) in
  (D, w32 (B + rotl32 F' (nth i md5_S 0)), B, C).

Definition md5_block (s : N * N * N * N) (block : list N) : N * N * N * N :=
  let M := map le_word (chunks 4 16 block) in
  let '(a0, b0, c0, d0) := s in
  let '(A, B, C, D) := foldl (md5_round M) s (seq 0 64) in
  (w32 (a0 + A), w32 (b0 + B), w32 (c0 + C), w32 (d0 + D)).

Definition md5 (msg : Buffer) : list N :=
  let padded := md5_pad (map Byte.to_N msg) in
  let '(A, B, C, D) :=
    foldl md5_block (0x67452301, 0xefcdab89, 0x98badcfe, 0x10325476)
          (chunks 64 (length padded) padded) in
  le_bytes 4 A ++ le_bytes 4 B ++ le_bytes 4 C ++ le_bytes 4 D.

Definition base64_alphabet : string :=
  "ABCDEFGHIJKLMNOPQRSTUVWXYZabcdefghijklmnopqrstuvwxyz0123456789+/".

Definition base64_char (n : N) : string :=
  match String.get (N.to_nat n) base64_alphabet with
  | Some c => String c EmptyString
  | None => EmptyString
  end.

Fixpoint base64 (fuel : nat) (bs : list N) : string :=
  match fuel, bs with
  | O, _ => EmptyString
  | _, [] => EmptyString
  | S _, [a] =>
      (base64_char (a / 4) ++ base64_char ((a mod 4) * 16) ++ "==")%string
  | S _, [a; b] =>
      (base64_char (a / 4) ++ base64_char ((a mod 4) * 16 + b / 16)
       ++ base64_char ((b mod 16) * 4) ++ "=")%string
  | S f, a :: b :: c :: r =>
      (base64_char (a / 4) ++ base64_char ((a mod 4) * 16 + b / 16)
       ++ base64_char ((b mod 16) * 4 + c / 64) ++ base64_char (c mod 64)
       ++ base64 f r)%string
  end.

Definition sample_md5Base64 (b : Buffer) : string :=
  let h := md5 b in base64 (length h) h.

Local Close Scope N_scope.

(** *** The tokenizer *)

Inductive Mode :=
| Text
| BeforeTagName
| InTagName (name : string)
| BeforeAttributeName (name : string)
| InSelfClosingTag (name : string)
| InAttributeName (name : string)
| AfterAttributeName (name : string)
| BeforeAttributeValue (name : string)
| InAttributeValueDq (name : string)
| InAttributeValueSq (name : string)
| InAttributeValueNq (name : string)
| BeforeClosingTagName
| InClosingTag
| BeforeDeclaration
| BeforeComment
| InComment
| AfterComment1
| AfterComment2
| InDeclaration.

(** [index]: the absolute index of the next character. *)
Record Tokenizer := mkTokenizer { mode : Mode; index : nat }.

Definition whitespace (c : N) : bool :=
  (c =? 32)%N || (c =? 10)%N || (c =? 9)%N || (c =? 12)%N || (c =? 13)%N.

Definition char_is (ch : ascii) (c : N) : bool := (c =? N_of_ascii ch)%N.

Definition double_quote : ascii := ascii_of_nat 34.

(** A character of a tag name, lower-cased as [lowerCaseTags] asks. *)
Definition name_char (c : N) : string :=
  if (c <? 128)%N then String (lower_ascii (ascii_of_N c)) EmptyString else "?".

(** One character in state [m]: the next state, and the name of the tag
    whose [onopentag] fires at this character. *)
Definition before_attribute_name (name : string) (c : N) : Mode * option string :=
  if char_is ">" c then (Text, Some name)
  else if char_is "/" c then (InSelfClosingTag name, None)
  else if whitespace c then (BeforeAttributeName name, None)
  else (InAttributeName name, None).

Definition after_attribute_name (name : string) (c : N) : Mode * option string :=
  if char_is "=" c then (BeforeAttributeValue name, None)
  else if char_is "/" c || char_is ">" c then before_attribute_name name c
  else if whitespace c then (AfterAttributeName name, None)
  else (InAttributeName name, None).

Definition tokenize_char (m : Mode) (c : N) : Mode * option string :=
  match m with
  | Text => (if char_is "<" c then BeforeTagName else Text, None)
  | BeforeTagName =>
      if char_is "/" c then (BeforeClosingTagName, None)
      else if char_is "<" c then (BeforeTagName, None)
      else if char_is ">" c || whitespace c then (Text, None)
      else if char_is "!" c then (BeforeDeclaration, None)
      else if char_is "?" c then (InDeclaration, None)
      else (InTagName (name_char c), None)
  | InTagName name =>
      if char_is "/" c || char_is ">" c || whitespace c then before_attribute_name name c
      else (InTagName (name ++ name_char c)%string, None)
  | BeforeAttributeName name => before_attribute_name name c
  | InSelfClosingTag name =>
      if char_is ">" c then (Text, Some name)
      else if whitespace c then (InSelfClosingTag name, None)
      else before_attribute_name name c
  | InAttributeName name =>
      if char_is "=" c || char_is "/" c || char_is ">" c || whitespace c then after_attribute_name name c
      else (InAttributeName name, None)
  | AfterAttributeName name => after_attribute_name name c
  | BeforeAttributeValue name =>
      if char_is double_quote c then (InAttributeValueDq name, None)
      else if char_is "'" c then (InAttributeValueSq name, None)
      else if whitespace c then (BeforeAttributeValue name, None)
      else if char_is ">" c then before_attribute_name name c
      else (InAttributeValueNq name, None)
  | InAttributeValueDq name =>
      (if char_is double_quote c then BeforeAttributeName name else InAttributeValueDq name, None)
  | InAttributeValueSq name =>
      (if char_is "'" c then BeforeAttributeName name else InAttributeValueSq name, None)
  | InAttributeValueNq name =>
      if whitespace c || char_is ">" c then before_attribute_name name c
      else (InAttributeValueNq name, None)
  | BeforeClosingTagName =>
      (if char_is ">" c then Text else if whitespace c then BeforeClosingTagName else InClosingTag, None)
  | InClosingTag => (if char_is ">" c then Text else InClosingTag, None)
  | BeforeDeclaration =>
      (if char_is "-" c then BeforeComment else if char_is ">" c then Text else InDeclaration, None)
  | BeforeComment =>
      (if char_is "-" c then InComment else if char_is ">" c then Text else InDeclaration, None)
  | InComment => (if char_is "-" c then AfterComment1 else InComment, None)
  | AfterComment1 => (if char_is "-" c then AfterComment2 else InComment, None)
  | AfterComment2 =>
      (if char_is ">" c then Text else if char_is "-" c then AfterComment2 else InComment, None)
  | InDeclaration => (if char_is ">" c then Text else InDeclaration, None)
  end.

Fixpoint tokenize (t : Tokenizer) (s : JSString) : Tokenizer * list OpenTag :=
  match s with
  | [] => (t, [])
  | c :: r =>
      let '(m, fired) := tokenize_char (mode t) c in
      let '(t', tags) := tokenize (mkTokenizer m (S (index t))) r in
      match fired with
      | Some name => (t', mkOpenTag name (index t) :: tags)
      | None => (t', tags)
      end
  end.

Definition Tokenizer_new : Tokenizer := mkTokenizer Text 0.

(** [this._buffer += chunk] decodes each chunk on its own. *)
Definition sample_write (t : Tokenizer) (chunk : Buffer) : Tokenizer * list OpenTag :=
  tokenize t (toString chunk).

(** [parseComplete] resets the parser before it reads its argument. *)
Definition sample_parseComplete (t : Tokenizer) (chunk : Buffer) : list OpenTag :=
  snd (tokenize Tokenizer_new (toString chunk)).

(** *** Numbers, [inspect], media types *)

Definition digit_value (c : ascii) : option Z :=
  let n := nat_of_ascii c in
  if (48 <=? n)%nat && (n <=? 57)%nat then Some (Z.of_nat (n - 48)) else None.

Fixpoint digits_value (acc : Z) (s : string) : option Z :=
  match s with
  | EmptyString => Some acc
  | String c r =>
      match digit_value c with
      | Some d => digits_value (10 * acc + d) r
      | None => None
      end
  end.

Definition unsigned_value (s : string) : option Z :=
  match s with
  | EmptyString => None
  | _ => digits_value 0 s
  end.

Definition sample_StringToNumber (s : string) : JSNumber :=
  let r :=
    match s with
    | EmptyString => Some 0%Z
    | String "-" r => Z.opp <$> unsigned_value r
    | String "+" r => unsigned_value r
    | _ => unsigned_value s
    end in
  match r with
  | Some z => NInt z
  | None => NOther
  end.

Definition sample_inspect (v : HeaderValue) : string :=
  match v with
  | HStr s => ("'" ++ s ++ "'")%string
  | HNum z => decimal z
  | HArr l => ("[ " ++ join ", " (map (fun s => "'" ++ s ++ "'")%string l) ++ " ]")%string
  end.

Fixpoint before_semicolon (s : string) : string :=
  match s with
  | EmptyString => EmptyString
  | String c r => if Ascii.eqb c ";" then EmptyString else String c (before_semicolon r)
  end.

Fixpoint trim_left (s : string) : string :=
  match s with
  | String " " r => trim_left r
  | _ => s
  end.

Fixpoint trim_right (s : string) : string :=
  match s with
  | EmptyString => EmptyString
  | String c r =>
      match trim_right r with
      | EmptyString => if Ascii.eqb c " " then EmptyString else String c EmptyString
      | r' => String c r'
      end
  end.

Fixpoint count_char (a : ascii) (s : string) : nat :=
  match s with
  | EmptyString => 0
  | String c r => (if Ascii.eqb c a then 1 else 0) + count_char a r
  end.

(** A type, a slash and a subtype, without blanks; lower-cased. *)
Definition sample_parse_type (s : string) : option string :=
  let t := trim_right (trim_left (before_semicolon s)) in
  if (count_char "/" t =? 1)%nat && (count_char " " t =? 0)%nat
     && negb (String.prefix "/" t)
     && negb (String.prefix "/" (String.substring (String.length t - 1) 1 t))
  then Some (toLowerCase t) else None.

Global Instance sample : Externals := {
  StringToNumber := sample_StringToNumber;
  inspect := sample_inspect;
  parse_type := sample_parse_type;
  md5Base64 := sample_md5Base64;
  ParserState := Tokenizer;
  Parser_new := Tokenizer_new;
  Parser_write := sample_write;
  Parser_parseComplete := sample_parseComplete
}.

(** Pieces of the traces below. *)
Definition html_type : Op := SetHeader "content-type" (HStr "text/html").

Definition dq : string := String double_quote "".

Definition tab_newline_smiley : string :=
  String (ascii_of_nat 9) (String (ascii_of_nat 10) "☺️").

End Sample.

(** ** The checks on the arguments

    What the exported functions see before [main] does its work. A value
    is an object whose [setHeader] is a function (a response, given by
    the headers it has), a [Buffer], or something else, of which only the
    way [inspectWithKind] prints it matters. *)

Inductive JSValue :=
| JResponse (res_headers : gmap string HeaderValue)
| JBuffer (b : Buffer)
| JOther (printed : string).

Inductive Raised :=
| RangeError (message : string)
| TypeError (message : string).

(** The trailing arguments of the downstream call. *)
Definition rest_of (c : Downstream) : list Arg :=
  match c with DWrite _ r => r | DEnd _ r => r end.

(** What the wrapped [write]s of a trace make of their chunks:
    [Buffer.from(data)] in [write] reads a string as UTF-8, whatever
    encoding the call names. *)
Definition converted (ops : list Op) : Buffer :=
  concat (map (fun op => match op with Write d _ => to_buffer d | _ => [] end) ops).

(** The encoding argument names something other than UTF-8. *)
Definition names_other_encoding (rest : list Arg) : bool :=
  match rest with
  | AStr encoding :: _ =>
      negb (string_eqb (toLowerCase encoding) "utf8"
            || string_eqb (toLowerCase encoding) "utf-8")
  | _ => false
  end.

(** The bytes a caller hands over with a chunk: a Buffer as it is; a
    string as its UTF-8 encoding when no encoding is named or the one
    named is utf8 or utf-8 in any letter case. What a string means in
    another encoding (hex, base64, latin1, ...) is not followed here. *)
Definition chunk_bytes (d : Data) (rest : list Arg) : option Buffer :=
  match d with
  | DBuf b => Some b
  | DStr s => if names_other_encoding rest then None else Some (Buffer_from_string s)
  end.

(** The bytes written by the [write] calls of a trace, in order, when
    every chunk is one that [chunk_bytes] follows. *)
Fixpoint written (ops : list Op) : option Buffer :=
  match ops with
  | [] => Some []
  | Write d rest :: ops' =>
      match chunk_bytes d rest, written ops' with
      | Some b, Some w => Some (b ++ w)
      | _, _ => None
      end
  | _ :: ops' => written ops'
  end.

Definition is_end_op (op : Op) : bool :=
  match op with End _ _ => true | _ => false end.

Section Exports.

Context `{Ext : Externals}.

(** [inspectWithKind(v)] of the inspect-with-kind package *)
Variable inspectWithKind : JSValue -> string.

(** [argLen === 0 ? 'no' : argLen], which is also [argLen || 'no'] *)
Definition count_or_no (argLen : Z) : string :=
  if (argLen =? 0)%Z then "no" else decimal argLen.

(** [main] with its first statement, the check on [res]. *)
Definition main_checked (res : JSValue) (injectChunk : Buffer) (etag : option string)
    : Raised + State :=
  match res with
  | JResponse res_headers => inr (main injectChunk etag res_headers)
  | _ =>
      inl (TypeError ("Expected a ServerResponse object, but got " ++ inspectWithKind res ++ "."))
  end.

(** [module.exports = function injectBody(...args)]; the first case is
    [argLen === 2]. *)
Definition exports_injectBody (args : list JSValue) : Raised + State :=
  match args with
  | [res; v] =>
      match v with
      | JBuffer injectChunk => main_checked res injectChunk None
      | _ =>
          inl (TypeError ("Expected a code to inject to HTML <body>s (<Buffer>), but got "
                          ++ inspectWithKind v ++ "."))
      end
  | _ =>
      inl (RangeError ("Expected 2 arguments (<http.ServerResponse>, <Buffer>), but got "
                       ++ count_or_no (Z.of_nat (length args)) ++ " arguments."))
  end.

(** [injectBodyFromClass(...args)], which is only ever called through
    [bind] with its first two arguments fixed: [args] is [contents], the
    digest, and then [rest], so that [argLen = args.length - 2] is the
    length of [rest]. *)
Definition injectBodyFromClass (contents : Buffer) (digest : string) (rest : list JSValue)
    : Raised + State :=
  match rest with
  | [res] => main_checked res contents (Some digest)
  | _ =>
      inl (RangeError ("Expected 1 argument (<http.ServerResponse>), but got "
                       ++ count_or_no (Z.of_nat (2 + length rest) - 2) ++ " arguments."))
  end.

(** [new InjectBody(...args)]: the function it returns. *)
Definition InjectBody_new (args : list JSValue) : Raised + (list JSValue -> Raised + State) :=
  match args with
  | [v] =>
      match v with
      | JBuffer contents => inr (injectBodyFromClass contents (md5Base64 contents))
      | _ =>
          inl (TypeError ("Expected a code to inject to HTML <body>s (<Buffer>), but got "
                          ++ inspectWithKind v ++ "."))
      end
  | _ =>
      inl (RangeError ("Expected 1 argument (<Buffer>), but got "
                       ++ count_or_no (Z.of_nat (length args)) ++ " arguments."))
  end.

End Exports.

(** The state kept for as long as the locator runs: nothing spliced
    and nothing handed downstream yet; and never more than one splice. *)
Definition locating `{Ext : Externals} (st : State) : Prop :=
  (is_Some (parser st) -> injections st = 0 /\ sent st = []) /\ injections st <= 1.

(** The bytes the wrapper has taken and not lost: those handed
    downstream, then the backlog. *)
Definition held `{Ext : Externals} (st : State) : Buffer :=
  delivered st ++ concat (buffers st).

(** Not ending, and [len] still good for the next [Buffer.concat]: it
    measures the backlog, or there is no backlog to join any more. *)
Definition intact `{Ext : Externals} (st : State) : Prop :=
  willEnd st = false /\
  (len st = pending_bytes st \/ (buffers st = [] /\ parser st = None)).

Definition no_end (ops : list Op) : bool := forallb (fun op => negb (is_end_op op)) ops.

(** [inspectWithKind] for the sample runs. *)
Definition sample_inspectWithKind (v : JSValue) : string :=
  match v with
  | JResponse _ => "ServerResponse"
  | JBuffer _ => "Buffer"
  | JOther printed => printed
  end.

(** * Facts about the codec *)

(** ** Decoded text never stops inside a surrogate pair *)

Local Open Scope N_scope.

Lemma dec_lead_completes n d :
  dec_lead n = Some (inr d) -> completes (dec_need d) (dec_cp d) (dec_lo d) (dec_hi d).
Proof.
  unfold dec_lead.
  destruct (N.leb_spec n 0x7F); [discriminate|].
  destruct (N.leb_spec 0xC2 n), (N.leb_spec n 0xDF); cbn [andb].
  1: { intros [= <-]. cbn [completes dec_need dec_cp dec_lo dec_hi].
       intros m Hm. unfold no_lead. lia. }
  all: destruct (N.leb_spec 0xE0 n), (N.leb_spec n 0xEF); cbn [andb].
  all: try (intros [= <-]; cbn [completes dec_need dec_cp dec_lo dec_hi];
            intros m Hm m' Hm'; unfold no_lead;
            destruct (N.eqb_spec n 0xE0), (N.eqb_spec n 0xED); lia).
  all: destruct (N.leb_spec 0xF0 n), (N.leb_spec n 0xF4); cbn [andb]; try discriminate.
  all: intros [= <-]; cbn [completes dec_need dec_cp dec_lo dec_hi];
       intros m Hm m' Hm' m'' Hm''; unfold no_lead;
       destruct (N.eqb_spec n 0xF0), (N.eqb_spec n 0xF4); lia.
Qed.

Lemma utf8_code_points_no_lead bs : forall d,
  completes (dec_need d) (dec_cp d) (dec_lo d) (dec_hi d) ->
  Forall no_lead (utf8_code_points d bs).
Proof.
  assert (Hidle : completes (dec_need dec_idle) (dec_cp dec_idle) (dec_lo dec_idle) (dec_hi dec_idle))
    by (cbn [completes dec_need dec_cp dec_idle]; unfold no_lead; lia).
  assert (Hrep : no_lead 0xFFFD) by (unfold no_lead; lia).
  induction bs as [|b rest IH]; intros d Hd.
  - cbn. destruct (dec_need d); auto.
  - cbn [utf8_code_points].
    assert (Hfresh : Forall no_lead
              match dec_lead (Byte.to_N b) with
              | Some (inl cp) => cp :: utf8_code_points dec_idle rest
              | Some (inr d') => utf8_code_points d' rest
              | None => 0xFFFD :: utf8_code_points dec_idle rest
              end).
    { destruct (dec_lead (Byte.to_N b)) as [[cp|d']|] eqn:Hl.
      - constructor; [|now apply IH]. unfold dec_lead in Hl.
        destruct (N.leb_spec (Byte.to_N b) 0x7F).
        + injection Hl as <-. unfold no_lead. lia.
        + repeat match type of Hl with (if ?c then _ else _) = _ => destruct c end;
            discriminate.
      - apply IH. now apply dec_lead_completes in Hl.
      - constructor; [exact Hrep|now apply IH]. }
    destruct (dec_need d) as [|k] eqn:Hk; [exact Hfresh|].
    destruct (N.leb_spec (dec_lo d) (Byte.to_N b)) as [Hlo|Hlo],
             (N.leb_spec (Byte.to_N b) (dec_hi d)) as [Hhi|Hhi];
      cbn [andb]; try (constructor; [exact Hrep|exact Hfresh]).
    cbn [completes] in Hd. specialize (Hd (Byte.to_N b) (conj Hlo Hhi)).
    destruct k.
    + constructor; [exact Hd|now apply IH].
    + apply IH. exact Hd.
Qed.

Lemma ends_in_lead_app (a b : JSString) :
  b <> [] -> ends_in_lead (a ++ b) = ends_in_lead b.
Proof.
  intros Hb. unfold ends_in_lead.
  destruct b as [|x b] using rev_ind; [congruence|].
  now rewrite app_assoc, !last_snoc.
Qed.

Lemma utf16_units_no_lead cp : no_lead cp -> ends_in_lead (utf16_units cp) = false.
Proof.
  intros Hcp. unfold utf16_units, ends_in_lead, is_lead_surrogate.
  destruct (N.ltb_spec cp 0x10000); cbn [last].
  - destruct (N.leb_spec 0xD800 cp), (N.leb_spec cp 0xDBFF); try reflexivity.
    unfold no_lead in Hcp. lia.
  - generalize ((cp - 0x10000) mod 0x400). intros m.
    destruct (N.leb_spec (0xDC00 + m) 0xDBFF); [lia|].
    now rewrite andb_false_r.
Qed.

Lemma toString_no_lead (b : Buffer) : ends_in_lead (toString b) = false.
Proof.
  unfold toString.
  pose proof (utf8_code_points_no_lead b dec_idle) as H.
  assert (Hidle : completes (dec_need dec_idle) (dec_cp dec_idle) (dec_lo dec_idle) (dec_hi dec_idle))
    by (cbn [completes dec_need dec_cp dec_idle]; unfold no_lead; lia).
  specialize (H Hidle). induction H as [|cp cps Hcp _ IH]; [reflexivity|].
  cbn [map concat].
  destruct (concat (map utf16_units cps)) as [|u us] eqn:E.
  - rewrite app_nil_r. now apply utf16_units_no_lead.
  - now rewrite ends_in_lead_app.
Qed.

Local Close Scope N_scope.

(** ** Encoding a concatenation *)

Lemma ends_in_lead_cons u v s :
  ends_in_lead (u :: v :: s) = ends_in_lead (v :: s).
Proof. reflexivity. Qed.

(** [Buffer.from] distributes over a concatenation whose left part does
    not end in the first half of a surrogate pair. *)
Lemma Buffer_from_string_app (b : JSString) : forall n (a : JSString),
  length a <= n -> ends_in_lead a = false ->
  Buffer_from_string (a ++ b) = Buffer_from_string a ++ Buffer_from_string b.
Proof.
  induction n as [|n IH]; intros a Hn Ha.
  - destruct a; [reflexivity|simpl in Hn; lia].
  - destruct a as [|u rest]; [reflexivity|].
    simpl in Hn. cbn [app Buffer_from_string].
    destruct (is_lead_surrogate u) eqn:Hu.
    + destruct rest as [|v rest'].
      * unfold ends_in_lead in Ha. simpl in Ha. congruence.
      * cbn [app]. rewrite ends_in_lead_cons in Ha. simpl in Hn.
        destruct (is_trail_surrogate v).
        -- rewrite <- app_assoc. f_equal. apply IH; [lia|].
           destruct rest'; [reflexivity|exact Ha].
        -- rewrite <- app_assoc. f_equal.
           apply (IH (v :: rest')); [simpl; lia|exact Ha].
    + assert (Hrest : Buffer_from_string (rest ++ b) =
                      Buffer_from_string rest ++ Buffer_from_string b).
      { apply IH; [lia|]. destruct rest; [reflexivity|exact Ha]. }
      destruct (is_trail_surrogate u); rewrite Hrest; now rewrite app_assoc.
Qed.

Lemma ends_in_lead_take (s : JSString) i u :
  s !! i = Some u -> is_lead_surrogate u = false -> ends_in_lead (take (S i) s) = false.
Proof.
  intros Hi Hu. unfold ends_in_lead.
  rewrite (take_S_r s i u Hi), last_snoc. exact Hu.
Qed.

(** * Properties *)

Section Properties.

Context `{Ext : Externals}.
Variable injectChunk : Buffer.
Variable etag : option string.

Local Abbreviation step' := (step injectChunk etag).
Local Abbreviation run' := (run injectChunk etag).

(** ** What the [onopentag] handler leaves alone *)

Ltac handler_cases st :=
  unfold onopentag; destruct (parser st); [|reflexivity];
  repeat match goal with |- context [if ?c then _ else _] => destruct c end;
  reflexivity.

Lemma onopentag_isHtml st tag : isHtml (onopentag injectChunk st tag) = isHtml st.
Proof. handler_cases st. Qed.

Lemma onopentag_willEnd st tag : willEnd (onopentag injectChunk st tag) = willEnd st.
Proof. handler_cases st. Qed.

Lemma onopentag_headers st tag : headers (onopentag injectChunk st tag) = headers st.
Proof. handler_cases st. Qed.

Lemma onopentag_sent st tag : sent (onopentag injectChunk st tag) = sent st.
Proof. handler_cases st. Qed.

Lemma onopentag_emitted st tag : emitted (onopentag injectChunk st tag) = emitted st.
Proof. handler_cases st. Qed.

Lemma onopentag_off st tag : parser st = None -> onopentag injectChunk st tag = st.
Proof. intros H. unfold onopentag. now rewrite H. Qed.

(** A field that every callback preserves is preserved by a whole run of
    callbacks. *)
Lemma handler_fold_preserves {A} (f : State -> A) :
  (forall st tag, f (onopentag injectChunk st tag) = f st) ->
  forall tags st, f (foldl (onopentag injectChunk) st tags) = f st.
Proof.
  intros Hf tags. induction tags as [|tag tags IH]; intros st; simpl; [reflexivity|].
  rewrite IH. apply Hf.
Qed.

Lemma handler_fold_off tags st :
  parser st = None -> foldl (onopentag injectChunk) st tags = st.
Proof.
  induction tags as [|tag tags IH]; simpl; intros H; [reflexivity|].
  rewrite onopentag_off by exact H. now apply IH.
Qed.

(** The first [body] tag clears [parser], whatever the classification. *)
Lemma onopentag_body_ends st tag :
  tagName tag = "body" -> parser (onopentag injectChunk st tag) = None.
Proof.
  intros Hb. unfold onopentag. destruct (parser st) eqn:Hp; [|exact Hp].
  rewrite Hb. simpl. destruct (isHtml st); reflexivity.
Qed.

Lemma onopentag_not_html st tag :
  isHtml st = false ->
  injections (onopentag injectChunk st tag) = injections st /\
  buffers (onopentag injectChunk st tag) = buffers st /\
  len (onopentag injectChunk st tag) = len st.
Proof.
  intros Hh. unfold onopentag. destruct (parser st); [|auto].
  destruct (negb _); [auto|]. rewrite Hh. simpl. auto.
Qed.

Lemma handler_fold_not_html tags : forall st,
  isHtml st = false ->
  injections (foldl (onopentag injectChunk) st tags) = injections st /\
  buffers (foldl (onopentag injectChunk) st tags) = buffers st /\
  len (foldl (onopentag injectChunk) st tags) = len st.
Proof.
  induction tags as [|tag tags IH]; intros st Hh; simpl; [auto|].
  destruct (onopentag_not_html st tag Hh) as (Hi & Hb & Hl).
  destruct (IH (onopentag injectChunk st tag)) as (Hi' & Hb' & Hl').
  { now rewrite onopentag_isHtml. }
  rewrite Hi', Hb', Hl'. auto.
Qed.

Lemma handler_fold_body_ends tags : forall st,
  (exists tag, In tag tags /\ tagName tag = "body") ->
  parser (foldl (onopentag injectChunk) st tags) = None.
Proof.
  induction tags as [|tag tags IH]; intros st [t [Hin Hb]]; simpl in *; [contradiction|].
  destruct Hin as [->|Hin].
  - rewrite handler_fold_off; now apply onopentag_body_ends.
  - apply IH. eauto.
Qed.

(** ** Fields the small steps leave alone *)

Lemma finish_fields rest st :
  buffers (finish rest st) = buffers st /\ len (finish rest st) = len st /\
  isHtml (finish rest st) = isHtml st /\ parser (finish rest st) = parser st /\
  headers (finish rest st) = headers st /\ emitted (finish rest st) = emitted st /\
  injections (finish rest st) = injections st /\ willEnd (finish rest st) = willEnd st.
Proof. unfold finish. destruct (buffers st) as [|b [|b' l]] eqn:E; simpl; rewrite ?E; auto 10. Qed.

Lemma call_last_fields rest st :
  buffers (call_last rest st) = buffers st /\ len (call_last rest st) = len st /\
  isHtml (call_last rest st) = isHtml st /\ parser (call_last rest st) = parser st /\
  headers (call_last rest st) = headers st /\ emitted (call_last rest st) = emitted st /\
  injections (call_last rest st) = injections st /\ sent (call_last rest st) = sent st /\
  willEnd (call_last rest st) = willEnd st.
Proof. unfold call_last. destruct (last rest) as [[]|]; simpl; auto 10. Qed.

Lemma adjustContentLength_fields v st :
  buffers (adjustContentLength injectChunk v st) = buffers st /\
  len (adjustContentLength injectChunk v st) = len st /\
  isHtml (adjustContentLength injectChunk v st) = isHtml st /\
  parser (adjustContentLength injectChunk v st) = parser st /\
  sent (adjustContentLength injectChunk v st) = sent st /\
  injections (adjustContentLength injectChunk v st) = injections st /\
  willEnd (adjustContentLength injectChunk v st) = willEnd st.
Proof.
  unfold adjustContentLength. destruct (Number v); [|simpl; auto 10].
  destruct (z <? 0)%Z; [simpl; auto 10|]. destruct (isHtml st) eqn:E; simpl; rewrite ?E; auto 10.
Qed.

(** ** The six ways through [res.write] *)

Lemma res_write_branch d rest st :
  write_branch injectChunk d rest st (res_write injectChunk d rest st).
Proof.
  unfold res_write.
  destruct (refused_encoding st rest) as [e|] eqn:He; [now constructor|].
  destruct (parser st) as [p|] eqn:Hp.
  - change (willEnd (keep (to_buffer d) st)) with (willEnd st).
    destruct (willEnd st) eqn:Hw.
    + now apply completing.
    + destruct (Parser_write p (to_buffer d)) as [p' tags] eqn:Hpw.
      replace p' with (fst (Parser_write p (to_buffer d))) by now rewrite Hpw.
      replace tags with (snd (Parser_write p (to_buffer d))) by now rewrite Hpw.
      now apply parsing.
  - destruct (willEnd st) eqn:Hw; simpl.
    + now apply accumulating.
    + case_bool_decide as Hb; simpl.
      * now apply forwarding.
      * now apply flushing.
Qed.

(** [end] after the locator is cleared: the chunk joins the backlog and
    the last statement group of [write] runs. *)
Lemma res_write_accumulates d rest st :
  parser st = None -> refused_encoding st rest = None ->
  res_write injectChunk d rest (with_willEnd true st) =
  finish rest (with_buffers (buffers st ++ [to_buffer d]) (with_willEnd true st)).
Proof.
  intros Hoff Hr.
  destruct (res_write_branch d rest (with_willEnd true st)) as
    [e He|q _ Hq _|q _ Hq _|_ _ Hw|_ _ _|_ _ Hw];
    [ change (refused_encoding st rest = Some e) in He; congruence
    | cbn in Hq; congruence | cbn in Hq; congruence
    | discriminate Hw | reflexivity | discriminate Hw ].
Qed.

(** ** Fields the wrappers leave alone *)

Lemma res_write_isHtml d rest st : isHtml (res_write injectChunk d rest st) = isHtml st.
Proof.
  destruct (res_write_branch d rest st); try reflexivity.
  - match goal with |- isHtml (call_last _ ?s) = _ =>
      destruct (call_last_fields rest s) as (_ & _ & -> & _) end.
    now rewrite (handler_fold_preserves isHtml onopentag_isHtml).
  - match goal with |- isHtml (finish _ ?s) = _ =>
      destruct (finish_fields rest s) as (_ & _ & -> & _) end.
    unfold parser_end. cbn [isHtml with_parser].
    now rewrite (handler_fold_preserves isHtml onopentag_isHtml).
  - match goal with |- isHtml (finish _ ?s) = _ =>
      now destruct (finish_fields rest s) as (_ & _ & -> & _) end.
Qed.

Lemma res_write_headers d rest st : headers (res_write injectChunk d rest st) = headers st.
Proof.
  destruct (res_write_branch d rest st); try reflexivity.
  - match goal with |- headers (call_last _ ?s) = _ =>
      destruct (call_last_fields rest s) as (_ & _ & _ & _ & -> & _) end.
    now rewrite (handler_fold_preserves headers onopentag_headers).
  - match goal with |- headers (finish _ ?s) = _ =>
      destruct (finish_fields rest s) as (_ & _ & _ & _ & -> & _) end.
    unfold parser_end. cbn [headers with_parser].
    now rewrite (handler_fold_preserves headers onopentag_headers).
  - match goal with |- headers (finish _ ?s) = _ =>
      now destruct (finish_fields rest s) as (_ & _ & _ & _ & -> & _) end.
Qed.

Lemma res_end_isHtml d rest st : isHtml (res_end injectChunk d rest st) = isHtml st.
Proof. unfold res_end. destruct d as [|[b|[|c s]]|f]; now rewrite res_write_isHtml. Qed.

Lemma res_end_headers d rest st : headers (res_end injectChunk d rest st) = headers st.
Proof. unfold res_end. destruct d as [|[b|[|c s]]|f]; now rewrite res_write_headers. Qed.

(** A cleared [parser] is never set again, and nothing is spliced after. *)
Lemma res_write_parser_off d rest st :
  parser st = None ->
  parser (res_write injectChunk d rest st) = None /\
  injections (res_write injectChunk d rest st) = injections st.
Proof.
  intros Hoff. destruct (res_write_branch d rest st); try congruence; try (now split).
  match goal with |- context [finish _ ?s] =>
    destruct (finish_fields rest s) as (_ & _ & _ & -> & _ & _ & -> & _) end.
  now split.
Qed.

Lemma res_end_parser_off d rest st :
  parser st = None ->
  parser (res_end injectChunk d rest st) = None /\
  injections (res_end injectChunk d rest st) = injections st.
Proof.
  intros Hoff. unfold res_end.
  destruct d as [|[b|[|c s]]|f];
    exact (res_write_parser_off _ _ (with_willEnd true st) Hoff).
Qed.

Lemma adjustContentLength_isHtml v st :
  isHtml (adjustContentLength injectChunk v st) = isHtml st.
Proof. apply adjustContentLength_fields. Qed.

Lemma res_setHeader_isHtml name v st :
  isHtml st = true -> isHtml (fst (res_setHeader injectChunk etag name v st)) = true.
Proof.
  intros Hh. unfold res_setHeader.
  destruct v as [s|z|l]; [| |exact Hh];
    repeat match goal with
           | |- context [if ?c then _ else _] => destruct c
           | |- context [match parse_type ?s with _ => _ end] => destruct (parse_type s)
           | |- context [match parser ?s with _ => _ end] => destruct (parser s)
           end;
    cbn [fst]; rewrite ?adjustContentLength_isHtml; try exact Hh; reflexivity.
Qed.

Lemma res_setHeader_parser_off name v st :
  parser st = None ->
  parser (fst (res_setHeader injectChunk etag name v st)) = None /\
  injections (fst (res_setHeader injectChunk etag name v st)) = injections st.
Proof.
  intros Hoff. unfold res_setHeader. rewrite Hoff.
  destruct v as [s|z|l]; [| |now split];
    repeat match goal with
           | |- context [if ?c then _ else _] => destruct c
           | |- context [match parse_type ?s with _ => _ end] => destruct (parse_type s)
           | |- context [match parser ?s with _ => _ end] => destruct (parser s)
           end;
    cbn [fst];
    try (destruct (adjustContentLength_fields (HStr s) st) as (_ & _ & _ & -> & _ & -> & _));
    try (destruct (adjustContentLength_fields (HNum z) st) as (_ & _ & _ & -> & _ & -> & _));
    now split.
Qed.

(** ** Whole traces *)

Lemma step_isHtml st op : isHtml st = true -> isHtml (step' st op) = true.
Proof.
  intros Hh. destruct op as [n v|d r|d r]; simpl.
  - now apply res_setHeader_isHtml.
  - now rewrite res_write_isHtml.
  - now rewrite res_end_isHtml.
Qed.

Lemma run_isHtml ops : forall st, isHtml st = true -> isHtml (run' st ops) = true.
Proof.
  induction ops as [|op ops IH]; intros st Hh; simpl; [exact Hh|].
  apply IH. now apply step_isHtml.
Qed.

Lemma step_parser_off st op :
  parser st = None ->
  parser (step' st op) = None /\ injections (step' st op) = injections st.
Proof.
  intros Hoff. destruct op as [n v|d r|d r]; simpl.
  - now apply res_setHeader_parser_off.
  - now apply res_write_parser_off.
  - now apply res_end_parser_off.
Qed.

Lemma run_parser_off ops : forall st,
  parser st = None ->
  parser (run' st ops) = None /\ injections (run' st ops) = injections st.
Proof.
  induction ops as [|op ops IH]; intros st Hoff; simpl; [now split|].
  destruct (step_parser_off st op Hoff) as [Hp Hi].
  destruct (IH _ Hp) as [Hp' Hi']. split; congruence.
Qed.

Lemma run_body_headers ops : forall st,
  forallb is_write_or_end ops = true -> headers (run' st ops) = headers st.
Proof.
  induction ops as [|op ops IH]; intros st Hops; simpl in *; [reflexivity|].
  apply andb_prop in Hops as [Hop Hops]. rewrite IH by exact Hops.
  destruct op; simpl in *; [discriminate| |].
  - apply res_write_headers.
  - apply res_end_headers.
Qed.

(** ** Header bookkeeping *)

Lemma string_eqb_true a b : a = b -> string_eqb a b = true.
Proof. intros ->. unfold string_eqb. now apply bool_decide_eq_true. Qed.

Lemma string_eqb_false a b : a <> b -> string_eqb a b = false.
Proof. intros H. unfold string_eqb. now apply bool_decide_eq_false. Qed.

Lemma attach_headers (h : gmap string HeaderValue) name :
  name <> TMP_HEADER_NAME ->
  delete TMP_HEADER_NAME (<[TMP_HEADER_NAME := HStr "1"]> h) !! name = h !! name.
Proof.
  intros Hne. assert (Hne' : TMP_HEADER_NAME <> name) by (intros E; now apply Hne).
  rewrite lookup_delete_ne by exact Hne'. now rewrite lookup_insert_ne by exact Hne'.
Qed.

Lemma adjustContentLength_other_header v st name :
  name <> "content-length" ->
  headers (adjustContentLength injectChunk v st) !! name = headers st !! name.
Proof.
  intros Hne. unfold adjustContentLength.
  destruct (Number v); [|reflexivity].
  destruct (z <? 0)%Z; [reflexivity|]. destruct (isHtml st); [|reflexivity].
  cbn. rewrite lookup_insert_ne; [reflexivity|]. intros E. now apply Hne.
Qed.

Lemma adjustContentLength_html v st L :
  isHtml st = true -> Number v = NInt L -> (0 <= L)%Z ->
  (L + Z.of_nat (length injectChunk) < 2 ^ 53)%Z ->
  adjustContentLength injectChunk v st =
  setHeader "content-length" (HStr (decimal (L + Z.of_nat (length injectChunk)))) st.
Proof.
  intros Hh Hn HL _. unfold adjustContentLength. rewrite Hn, Hh.
  now destruct (Z.ltb_spec L 0); [lia|].
Qed.

Lemma adjustContentLength_not_html v st L :
  isHtml st = false -> Number v = NInt L -> (0 <= L)%Z ->
  adjustContentLength injectChunk v st = st.
Proof.
  intros Hh Hn HL. unfold adjustContentLength. rewrite Hn, Hh.
  now destruct (Z.ltb_spec L 0); [lia|].
Qed.

Lemma adjustContentLength_invalid v st :
  (forall z, Number v = NInt z -> (z < 0)%Z) ->
  adjustContentLength injectChunk v st = emit_error (RFC7230_message v) st.
Proof.
  intros Hbad. unfold adjustContentLength. destruct (Number v) as [z|] eqn:Hn; [|reflexivity].
  specialize (Hbad z eq_refl). now destruct (Z.ltb_spec z 0); [|lia].
Qed.

Lemma res_setHeader_content_length name v st :
  toLowerCase name = "content-length" -> is_array v = false ->
  res_setHeader injectChunk etag name v st = (adjustContentLength injectChunk v st, Returned).
Proof.
  intros Hn Ha. unfold res_setHeader. rewrite Hn.
  destruct v; [reflexivity|reflexivity|discriminate].
Qed.

Lemma res_setHeader_etag name v st :
  isHtml st = true -> toLowerCase name = "etag" -> is_array v = false ->
  res_setHeader injectChunk etag name v st =
  (setHeader name (HStr (template v ++ digest injectChunk etag)) st, Returned).
Proof.
  intros Hh Hn Ha. unfold res_setHeader. rewrite Hn, Hh.
  destruct v; [reflexivity|reflexivity|discriminate].
Qed.

Lemma res_setHeader_content_type name s st :
  toLowerCase name = "content-type" ->
  res_setHeader injectChunk etag name (HStr s) st =
  match parse_type s with
  | None => (st, Thrown "TypeError")
  | Some type =>
      if string_eqb type "text/html"
      then (setHeader name (HStr s) (with_isHtml true st), Returned)
      else match parser st with
           | None => (st, Thrown "TypeError")
           | Some _ => (setHeader name (HStr s) (parser_end st), Returned)
           end
  end.
Proof.
  intros Hn. unfold res_setHeader. rewrite Hn.
  change (string_eqb "content-type" "content-length") with false.
  change (string_eqb "content-type" "etag") with false.
  change (string_eqb "content-type" "content-type") with true.
  now rewrite andb_false_r.
Qed.

Lemma setHeader_lookup name v st :
  headers (setHeader name v st) !! toLowerCase name = Some v.
Proof. cbn. apply lookup_insert_eq. Qed.

(** ** What [res.write] emits *)

Lemma res_write_emitted d rest st :
  refused_encoding st rest = None ->
  emitted (res_write injectChunk d rest st) = emitted st.
Proof.
  intros Hr. destruct (res_write_branch d rest st); try congruence; try reflexivity.
  - match goal with |- emitted (call_last _ ?s) = _ =>
      destruct (call_last_fields rest s) as (_ & _ & _ & _ & _ & -> & _) end.
    now rewrite (handler_fold_preserves emitted onopentag_emitted).
  - match goal with |- emitted (finish _ ?s) = _ =>
      destruct (finish_fields rest s) as (_ & _ & _ & _ & _ & -> & _) end.
    unfold parser_end. cbn [emitted with_parser].
    now rewrite (handler_fold_preserves emitted onopentag_emitted).
  - match goal with |- emitted (finish _ ?s) = _ =>
      now destruct (finish_fields rest s) as (_ & _ & _ & _ & _ & -> & _) end.
Qed.

(** ** Attaching to a response that already says text/html *)

Lemma main_html (h : gmap string HeaderValue) :
  h !! "content-type" = Some (HStr "text/html") ->
  isHtml (main injectChunk etag h) = true /\
  forall E, h !! "etag" = Some (HStr E) ->
    headers (main injectChunk etag h) !! "etag" = Some (HStr (E ++ digest injectChunk etag)).
Proof.
  intros Hct. unfold main.
  set (st0 := mkState _ _ _ _ _ _ _ _ _ _).
  assert (Hlook : forall name, name <> TMP_HEADER_NAME -> headers st0 !! name = h !! name)
    by (intros; now apply attach_headers).
  assert (Hct0 : getHeader "content-type" st0 = Some (HStr "text/html"))
    by (unfold getHeader; rewrite <- Hct; now apply Hlook).
  assert (Hhas : hasHeader "content-type" st0 = true).
  { unfold hasHeader. apply bool_decide_eq_true. unfold getHeader in Hct0.
    rewrite Hct0. eauto. }
  rewrite Hhas, Hct0. rewrite bool_decide_eq_true_2 by reflexivity.
  set (st := with_isHtml true st0).
  set (st1 := match getHeader "content-length" st with
              | Some v => adjustContentLength injectChunk v st
              | None => st
              end).
  assert (Hh1 : isHtml st1 = true).
  { subst st1. destruct (getHeader "content-length" st); [|reflexivity].
    now rewrite adjustContentLength_isHtml. }
  assert (He1 : getHeader "etag" st1 = h !! "etag").
  { subst st1. unfold getHeader at 1.
    destruct (getHeader "content-length" st).
    - rewrite adjustContentLength_other_header by discriminate. now apply Hlook.
    - now apply Hlook. }
  rewrite He1, Hh1. split.
  - now destruct (h !! "etag").
  - intros E ->. apply (setHeader_lookup "etag").
Qed.

(** ** The backlog while the locator runs *)

Lemma keep_measured data st : measured st -> measured (keep data st).
Proof.
  unfold measured, pending_bytes. cbn. intros H Hp. rewrite (H Hp).
  rewrite concat_app, length_app. simpl. now rewrite app_nil_r.
Qed.

(** A callback leaves the backlog alone or clears the locator. *)
Lemma onopentag_backlog st tag :
  parser (onopentag injectChunk st tag) = None \/
  (buffers (onopentag injectChunk st tag) = buffers st /\
   len (onopentag injectChunk st tag) = len st /\
   parser (onopentag injectChunk st tag) = parser st).
Proof.
  unfold onopentag. destruct (parser st) eqn:Hp; [|now left].
  destruct (negb _); [right; auto|]. destruct (negb _); now left.
Qed.

Lemma onopentag_measured st tag : measured st -> measured (onopentag injectChunk st tag).
Proof.
  intros H. destruct (onopentag_backlog st tag) as [Hoff|(Hb & Hl & Hp)].
  - intros [q Hq]. congruence.
  - unfold measured, pending_bytes in *. now rewrite Hb, Hl, Hp.
Qed.

Lemma handler_fold_measured tags : forall st,
  measured st -> measured (foldl (onopentag injectChunk) st tags).
Proof.
  induction tags as [|tag tags IH]; intros st H; simpl; [exact H|].
  apply IH. now apply onopentag_measured.
Qed.

Lemma off_measured st : parser st = None -> measured st.
Proof. intros Hoff [q Hq]. congruence. Qed.

Lemma res_write_measured d rest st :
  measured st -> measured (res_write injectChunk d rest st).
Proof.
  intros H. destruct (res_write_branch d rest st) as [e _|q _ Hq _|q _ _ _|_ Hq _ _|_ Hq _|_ Hq _ _].
  - exact H.
  - match goal with |- measured (call_last _ ?s) =>
      assert (Hs : measured s) end.
    { apply handler_fold_measured. intros _.
      apply (keep_measured (to_buffer d) st H). change (is_Some (parser st)).
      rewrite Hq. eauto. }
    unfold measured, pending_bytes in *.
    match goal with |- context [call_last _ ?s] =>
      destruct (call_last_fields rest s) as (-> & -> & _ & -> & _) end.
    exact Hs.
  - apply off_measured.
    match goal with |- context [finish _ ?s] =>
      now destruct (finish_fields rest s) as (_ & _ & _ & -> & _) end.
  - now apply off_measured.
  - apply off_measured.
    match goal with |- context [finish _ ?s] =>
      now destruct (finish_fields rest s) as (_ & _ & _ & -> & _) end.
  - now apply off_measured.
Qed.

Lemma res_setHeader_backlog name v st :
  buffers (fst (res_setHeader injectChunk etag name v st)) = buffers st /\
  len (fst (res_setHeader injectChunk etag name v st)) = len st.
Proof.
  unfold res_setHeader.
  destruct v as [s|z|l]; [| |now split];
    repeat match goal with
           | |- context [if ?c then _ else _] => destruct c
           | |- context [match parse_type ?s with _ => _ end] => destruct (parse_type s)
           | |- context [match parser ?s with _ => _ end] => destruct (parser s)
           end;
    cbn [fst];
    try (destruct (adjustContentLength_fields (HStr s) st) as (-> & -> & _));
    try (destruct (adjustContentLength_fields (HNum z) st) as (-> & -> & _));
    now split.
Qed.

Lemma step_measured st op : measured st -> measured (step' st op).
Proof.
  intros H. destruct op as [n v|d r|d r]; simpl.
  - destruct (res_setHeader_backlog n v st) as [Hb Hl].
    intros Hsome. unfold pending_bytes. rewrite Hb, Hl. apply H.
    destruct (parser st) eqn:Hp; [eauto|].
    destruct (res_setHeader_parser_off n v st Hp) as [Hoff _].
    rewrite Hoff in Hsome. now destruct Hsome.
  - now apply res_write_measured.
  - unfold res_end.
    destruct d as [|[b|[|c s]]|f]; now apply res_write_measured.
Qed.

Lemma run_measured ops : forall st, measured st -> measured (run' st ops).
Proof.
  induction ops as [|op ops IH]; intros st H; simpl; [exact H|].
  apply IH. now apply step_measured.
Qed.

Lemma main_backlog (h : gmap string HeaderValue) :
  buffers (main injectChunk etag h) = [] /\ len (main injectChunk etag h) = 0.
Proof.
  unfold main. set (st0 := mkState _ _ _ _ _ _ _ _ _ _).
  set (st1 := if hasHeader "content-type" st0 then _ else st0).
  assert (H1 : buffers st1 = [] /\ len st1 = 0).
  { subst st1. destruct (hasHeader "content-type" st0); [|now split].
    destruct (getHeader "content-length" _) as [v|]; [|now split].
    match goal with |- context [adjustContentLength _ v ?s] =>
      now destruct (adjustContentLength_fields v s) as (-> & -> & _) end. }
  destruct (getHeader "etag" st1); [|exact H1]. now destruct (isHtml st1).
Qed.

(** X3. From [main] on, whatever is called and in whatever order, [len]
    is the size of the backlog for as long as the locator is active. *)
Lemma len_measures_backlog_while_locating (h : gmap string HeaderValue) ops :
  measured (run' (main injectChunk etag h) ops).
Proof.
  apply run_measured. intros _. unfold pending_bytes.
  now destruct (main_backlog h) as [-> ->].
Qed.

(** ** The splice *)

Lemma Buffer_concat_exact (l : list Buffer) :
  Buffer_concat l (length (concat l)) = concat l.
Proof.
  unfold Buffer_concat. destruct l as [|b l]; [reflexivity|].
  rewrite Nat.sub_diag. simpl repeat. rewrite app_nil_r. apply firstn_all.
Qed.

Lemma Buffer_concat_single (b : Buffer) : Buffer_concat [b] (length b) = b.
Proof.
  pose proof (Buffer_concat_exact [b]) as H. simpl concat in H.
  now rewrite app_nil_r in H.
Qed.

(** With the locator active and classification Html, the first body tag
    replaces the backlog by one chunk: the text of the backlog with the
    text of the payload inserted one position after [endIndex]. Later
    callbacks of the same call find the locator cleared. *)
Lemma handler_fold_first_body tags tag st :
  is_Some (parser st) -> isHtml st = true -> first_body tags tag ->
  let html := toString (Buffer_concat (buffers st) (len st)) in
  let st' := foldl (onopentag injectChunk) st tags in
  buffers st' =
    [Buffer_from_string
       (take (endIndex tag + 1) html ++ toString injectChunk ++ drop (endIndex tag + 1) html)] /\
  len st' = len st + length injectChunk /\
  injections st' = S (injections st) /\ parser st' = None.
Proof.
  intros Hp Hh (before & after & -> & Hb & Hnot) html st'. subst st' html.
  rewrite foldl_app. cbn [foldl].
  assert (Hpre : foldl (onopentag injectChunk) st before = st).
  { clear Hp. induction Hnot as [|t ts Ht _ IH] using Forall_ind; [reflexivity|].
    cbn [foldl]. replace (onopentag injectChunk st t) with st; [exact IH|].
    unfold onopentag. destruct (parser st); [|reflexivity].
    now rewrite (string_eqb_false _ _ Ht). }
  rewrite Hpre. rewrite handler_fold_off; unfold onopentag; destruct Hp as [q ->];
    rewrite (string_eqb_true _ _ Hb), Hh; cbn; auto.
Qed.

(** The whole document in one [end] call, on an HTML response: the
    completion call carries the document with the payload spliced in
    after the first body tag that [parseComplete] reports. *)
Lemma single_end_splices st p b rest tag :
  parser st = Some p -> isHtml st = true -> buffers st = [] -> len st = 0 ->
  refused_encoding st rest = None ->
  first_body (Parser_parseComplete p b) tag ->
  sent (res_end injectChunk (EData (DBuf b)) rest st) =
  sent st ++
  [DEnd (Buffer_from_string
           (take (endIndex tag + 1) (toString b) ++ toString injectChunk
            ++ drop (endIndex tag + 1) (toString b))) rest].
Proof.
  intros Hp Hh Hb Hl Hr Hfirst. unfold res_end.
  destruct (res_write_branch (DBuf b) rest (with_willEnd true st)) as
    [e He|q _ _ Hw|q _ Hq _|_ Hq _ _|_ Hq _|_ Hq _ _];
    [ change (refused_encoding st rest = Some e) in He; congruence
    | discriminate Hw | | cbn in Hq; congruence .. ].
  cbn in Hq. assert (q = p) as -> by congruence.
  cbn [to_buffer] in *.
  destruct (handler_fold_first_body (Parser_parseComplete p b) tag
              (keep b (with_willEnd true st))) as (Hbuf & _ & _ & _);
    [cbn; rewrite Hp; eauto | exact Hh | exact Hfirst |].
  cbn [buffers len keep with_buffers with_len with_willEnd] in Hbuf.
  rewrite Hb, Hl in Hbuf. cbn [app Nat.add] in Hbuf.
  rewrite Buffer_concat_single in Hbuf.
  unfold finish. cbn [buffers parser_end with_parser]. rewrite Hbuf. cbn.
  now rewrite (handler_fold_preserves sent onopentag_sent).
Qed.


(** ** The completion call after the locator is cleared *)

Lemma Buffer_concat_cut (l : list Buffer) (b : Buffer) :
  l <> [] -> Buffer_concat (l ++ [b]) (length (concat l)) = concat l.
Proof.
  intros Hl. unfold Buffer_concat.
  destruct (l ++ [b]) as [|x r] eqn:E; [now destruct l|]. rewrite <- E.
  rewrite concat_app. simpl concat. rewrite app_nil_r, length_app.
  replace (length (concat l) - (length (concat l) + length b)) with 0 by lia.
  simpl repeat. rewrite app_nil_r. now rewrite take_app_length.
Qed.

Lemma res_end_data d rest st :
  exists d', to_buffer d' = to_buffer d /\
    res_end injectChunk (EData d) rest st =
    res_write injectChunk d' rest (with_willEnd true st).
Proof.
  unfold res_end. destruct d as [b|[|c s]].
  - now exists (DBuf b).
  - now exists (DBuf []).
  - now exists (DStr (c :: s)).
Qed.

(** ** One completion call *)

Lemma finish_sent rest st :
  exists chunk, sent (finish rest st) = sent st ++ [DEnd chunk rest].
Proof. unfold finish. destruct (buffers st) as [|b [|b' l]]; eexists; reflexivity. Qed.

(** A write that the guard lets through hands one chunk to the original
    [end] when [willEnd] holds, and nothing to it otherwise. *)
Lemma res_write_completion d rest st :
  refused_encoding st rest = None ->
  (willEnd st = true ->
   exists chunk, sent (res_write injectChunk d rest st) = sent st ++ [DEnd chunk rest]) /\
  (willEnd st = false ->
   end_calls (res_write injectChunk d rest st) = end_calls st) /\
  willEnd (res_write injectChunk d rest st) = willEnd st.
Proof.
  intros Hr. unfold end_calls.
  destruct (res_write_branch d rest st) as [e He|q _ _ Hw|q _ _ Hw|_ _ Hw _|_ _ Hw|_ _ Hw _];
    try congruence.
  - match goal with |- context [call_last _ ?s] =>
      destruct (call_last_fields rest s) as (_ & _ & _ & _ & _ & _ & _ & -> & ->) end.
    rewrite (handler_fold_preserves sent onopentag_sent),
            (handler_fold_preserves willEnd onopentag_willEnd).
    repeat split; congruence.
  - match goal with |- context [finish _ ?s] =>
      destruct (finish_sent rest s) as [chunk Hs];
      destruct (finish_fields rest s) as (_ & _ & _ & _ & _ & _ & _ & Hw') end.
    rewrite Hs, Hw'. unfold parser_end. cbn [sent willEnd with_parser].
    rewrite (handler_fold_preserves sent onopentag_sent),
            (handler_fold_preserves willEnd onopentag_willEnd).
    repeat split; [eauto|congruence].
  - cbn. rewrite List.filter_app, app_nil_r. repeat split; congruence.
  - match goal with |- context [finish _ ?s] =>
      destruct (finish_sent rest s) as [chunk Hs];
      destruct (finish_fields rest s) as (_ & _ & _ & _ & _ & _ & _ & Hw') end.
    rewrite Hs, Hw'. repeat split; [eauto|congruence].
  - cbn. rewrite List.filter_app, app_nil_r. repeat split; congruence.
Qed.

(** How [end] turns its arguments into a write. *)
Lemma res_end_is_a_write rest st :
  (forall f, res_end injectChunk (EFn f) rest st =
             res_write injectChunk (DBuf []) [AFn f] (with_willEnd true st)) /\
  res_end injectChunk ENone rest st =
    res_write injectChunk (DBuf []) rest (with_willEnd true st) /\
  (forall d, exists d', to_buffer d' = to_buffer d /\
     res_end injectChunk (EData d) rest st =
     res_write injectChunk d' rest (with_willEnd true st)).
Proof. split; [reflexivity|]. split; [reflexivity|]. intros d. apply res_end_data. Qed.

(** Every [end] that the guard lets through reaches the original [end]
    once, with the arguments that follow the data. *)
Lemma res_end_one_completion d rest st :
  let rest' := match d with EFn f => [AFn f] | _ => rest end in
  refused_encoding st rest' = None ->
  exists chunk, sent (res_end injectChunk d rest st) = sent st ++ [DEnd chunk rest'].
Proof.
  intros rest' Hr. unfold res_end.
  destruct d as [|[b|[|c s]]|f];
    exact (proj1 (res_write_completion _ rest' (with_willEnd true st) Hr) eq_refl).
Qed.

Lemma refused_encoding_same st st' r :
  isHtml st' = isHtml st -> refused_encoding st' r = refused_encoding st r.
Proof. intros H. unfold refused_encoding. now rewrite H. Qed.

(** X8. Writes, then one [end]: when nothing had been completed before and
    the guard refuses none of the calls, the original [end] is called
    exactly once. *)
Lemma writes_then_end_complete_once ws : forall st d rest,
  willEnd st = false -> end_calls st = [] ->
  Forall (fun w => exists d0 r0, w = Write d0 r0 /\ refused_encoding st r0 = None) ws ->
  refused_encoding st (match d with EFn f => [AFn f] | _ => rest end) = None ->
  length (end_calls (run' st (ws ++ [End d rest]))) = 1.
Proof.
  induction ws as [|w ws IH]; intros st d rest Hw He Hws Hr.
  - cbn [app run foldl step]. unfold end_calls in *.
    destruct (res_end_one_completion d rest st Hr) as [chunk ->].
    rewrite List.filter_app, He. reflexivity.
  - inversion Hws as [|w' ws' (d0 & r0 & -> & Hr0) Hws0]; subst.
    cbn [app run foldl step].
    destruct (res_write_completion d0 r0 st Hr0) as (_ & Hkeep & Hwill).
    pose proof (res_write_isHtml d0 r0 st) as Hsame.
    apply IH.
    + now rewrite Hwill.
    + now rewrite (Hkeep Hw).
    + eapply Forall_impl; [exact Hws0|]. intros w (d1 & r1 & -> & Hr1).
      exists d1, r1. split; [reflexivity|]. now rewrite (refused_encoding_same st _ r1 Hsame).
    + now rewrite (refused_encoding_same st _ _ Hsame).
Qed.

(** ** Passing through *)

(** With the locator cleared and no backlog, a write goes straight to the
    original [write]. *)
Lemma res_write_forwards d rest st :
  parser st = None -> buffers st = [] -> willEnd st = false ->
  refused_encoding st rest = None ->
  res_write injectChunk d rest st = write (to_buffer d) rest st.
Proof.
  intros Hoff Hb Hw Hr.
  destruct (res_write_branch d rest st); congruence.
Qed.

(** A response whose locator is cleared before anything is written (a
    content-type other than text/html came first) is passed through: the
    bytes handed downstream are the bytes written, in order, and the
    chunk given to [end] closes them. *)
Lemma passes_through ws : forall st d rest,
  parser st = None -> buffers st = [] -> willEnd st = false ->
  Forall (fun w => refused_encoding st (snd w) = None) ws ->
  refused_encoding st rest = None ->
  delivered (run' st (map (fun w => Write (fst w) (snd w)) ws ++ [End (EData d) rest])) =
  delivered st ++ concat (map (fun w => to_buffer (fst w)) ws) ++ to_buffer d.
Proof.
  induction ws as [|[d0 r0] ws IH]; intros st d rest Hoff Hb Hw Hws Hr.
  - cbn [map app run foldl step concat].
    destruct (res_end_data d rest st) as (d' & Hd' & ->). rewrite <- Hd'.
    rewrite (res_write_accumulates d' rest st Hoff Hr).
    unfold finish. cbn [buffers with_buffers with_willEnd]. rewrite Hb.
    unfold delivered. cbn. now rewrite map_app, concat_app; cbn; rewrite app_nil_r.
  - inversion Hws as [|w ws' Hr0 Hws0]; subst. cbn [fst snd] in Hr0.
    cbn [map app run foldl step fst snd concat].
    rewrite (res_write_forwards d0 r0 st Hoff Hb Hw Hr0).
    change (foldl (step injectChunk etag) ?s ?l) with (run' s l).
    rewrite IH; try assumption.
    unfold delivered. cbn. rewrite map_app, concat_app. cbn.
    now rewrite app_nil_r, <- !app_assoc.
Qed.

(** ** The splice, byte for byte *)

(** Text that survives the round trip through [toString] and
    [Buffer.from], cut right after a character that is not the first half
    of a pair (the [>] that closes a tag), with the payload put in
    between: the bytes are those on the left, the payload, and those on
    the right. *)
Lemma splice_bytes (b : Buffer) (i : nat) (u : N) :
  toString b !! i = Some u -> is_lead_surrogate u = false ->
  Buffer_from_string (toString b) = b ->
  Buffer_from_string (toString injectChunk) = injectChunk ->
  let pre := Buffer_from_string (take (i + 1) (toString b)) in
  let post := Buffer_from_string (drop (i + 1) (toString b)) in
  b = pre ++ post /\
  Buffer_from_string
    (take (i + 1) (toString b) ++ toString injectChunk ++ drop (i + 1) (toString b)) =
  pre ++ injectChunk ++ post.
Proof.
  intros Hi Hu Hb Hinj pre post. subst pre post. rewrite Nat.add_1_r.
  pose proof (ends_in_lead_take (toString b) i u Hi Hu) as Htake.
  split.
  - rewrite <- (Buffer_from_string_app _ _ _ (le_n _) Htake).
    now rewrite take_drop.
  - rewrite (Buffer_from_string_app _ _ _ (le_n _) Htake).
    rewrite (Buffer_from_string_app _ _ _ (le_n _) (toString_no_lead injectChunk)).
    now rewrite Hinj.
Qed.

(** X1. The whole document in one [end] call, byte for byte: when document
    and payload are well-formed UTF-8 and the tokenizer reports the index
    of the [>] that closes the first body tag, the completion call
    carries the document with the payload between the bytes up to that
    [>] and the bytes after it. *)
Lemma single_end_inserts_payload st p b rest tag :
  parser st = Some p -> isHtml st = true -> buffers st = [] -> len st = 0 ->
  refused_encoding st rest = None ->
  first_body (Parser_parseComplete p b) tag ->
  toString b !! endIndex tag = Some 62%N ->
  Buffer_from_string (toString b) = b ->
  Buffer_from_string (toString injectChunk) = injectChunk ->
  exists pre post,
    b = pre ++ post /\
    pre = Buffer_from_string (take (endIndex tag + 1) (toString b)) /\
    sent (res_end injectChunk (EData (DBuf b)) rest st) =
    sent st ++ [DEnd (pre ++ injectChunk ++ post) rest].
Proof.
  intros Hp Hh Hb Hl Hr Hfirst Hgt Hdoc Hinj.
  destruct (splice_bytes b (endIndex tag) 62%N Hgt eq_refl Hdoc Hinj) as [Hsplit Hbytes].
  eexists _, _. split; [exact Hsplit|]. split; [reflexivity|].
  rewrite (single_end_splices st p b rest tag Hp Hh Hb Hl Hr Hfirst). now rewrite Hbytes.
Qed.


(** ** The digest *)

(** Both entry points make [digest] the MD5 of the payload. *)
Lemma digest_of_payload :
  etag = None \/ etag = Some (md5Base64 injectChunk) ->
  digest injectChunk etag = md5Base64 injectChunk.
Proof.
  unfold digest. intros [->| ->]; [reflexivity|].
  now destruct (md5Base64 injectChunk).
Qed.

(** ** The closure when [main] returns *)

Lemma main_fresh (h : gmap string HeaderValue) :
  let st := main injectChunk etag h in
  buffers st = [] /\ len st = 0 /\ willEnd st = false /\ sent st = [] /\
  called st = [] /\ injections st = 0 /\ parser st = Some Parser_new.
Proof.
  unfold main. set (st0 := mkState _ _ _ _ _ _ _ _ _ _).
  set (st1 := if hasHeader "content-type" st0 then _ else st0).
  assert (H1 : buffers st1 = [] /\ len st1 = 0 /\ willEnd st1 = false /\ sent st1 = [] /\
               called st1 = [] /\ injections st1 = 0 /\ parser st1 = Some Parser_new).
  { subst st1. destruct (hasHeader "content-type" st0); [|cbn; auto 10].
    destruct (getHeader "content-length" _) as [v|]; [|cbn; auto 10].
    unfold adjustContentLength. destruct (Number v) as [z|]; [|cbn; auto 10].
    destruct (z <? 0)%Z; [cbn; auto 10|].
    match goal with |- context [if ?c then _ else _] => destruct c end; cbn; auto 10. }
  destruct (getHeader "etag" st1); [|exact H1]. now destruct (isHtml st1).
Qed.

(** * The claims *)


(** C2. What a content-length mutation with a non-negative integer
    value [L] does: while classification is Html the header forwarded
    downstream reads [L] plus the length of the payload, for every sum
    below 2^53, where the addition of the code is exact; while it is
    not, the wrapped [setHeader] returns without calling the original
    one, so the value is not forwarded at all and the state is left as
    it was. *)
Theorem content_length_mutation st name v L :
  toLowerCase name = "content-length" -> is_array v = false ->
  Number v = NInt L -> (0 <= L)%Z ->
  (isHtml st = true -> (L + Z.of_nat (length injectChunk) < 2 ^ 53)%Z ->
   headers (fst (res_setHeader injectChunk etag name v st)) !! "content-length" =
   Some (HStr (decimal (L + Z.of_nat (length injectChunk))))) /\
  (isHtml st = false ->
   res_setHeader injectChunk etag name v st = (st, Returned)).
Proof.
  intros Hn Ha Hnum HL. rewrite (res_setHeader_content_length name v st Hn Ha). split; intros Hh.
  - intros Hsafe. rewrite (adjustContentLength_html v st L Hh Hnum HL Hsafe).
    apply (setHeader_lookup "content-length").
  - now rewrite (adjustContentLength_not_html v st L Hh Hnum HL).
Qed.

(** C3, where the code departs from it. Through the wrapped
    [setHeader] the media type of every string value is parsed: with
    text/html the call sets [isHtml] and forwards the value; with another
    media type it leaves the locator cleared, so that no later call
    splices the payload in, and leaves [isHtml] as it was (the value is
    forwarded when the locator was still active); a value that does not
    parse, or a number, throws and changes nothing. When [main] attaches
    the value is not parsed: it is compared with the string text/html,
    and the locator is left running whatever the value is. So a value
    whose media type is text/html but which is not that very string
    (parameters, another letter case) leaves [isHtml] unset at attach
    time, where the same value set through the wrapper sets it; and a
    content-type with another media type found at attach time does not
    end the locator. *)
Theorem content_type_classifies :
  (forall st name s,
     toLowerCase name = "content-type" ->
     let r := res_setHeader injectChunk etag name (HStr s) st in
     (parse_type s = Some "text/html" ->
      r = (setHeader name (HStr s) (with_isHtml true st), Returned) /\
      isHtml (fst r) = true) /\
     (forall type, parse_type s = Some type -> type <> "text/html" ->
      isHtml (fst r) = isHtml st /\ parser (fst r) = None /\
      (is_Some (parser st) -> r = (setHeader name (HStr s) (parser_end st), Returned)) /\
      forall ops,
        parser (run' (fst r) ops) = None /\
        injections (run' (fst r) ops) = injections st) /\
     (parse_type s = None -> r = (st, Thrown "TypeError")) /\
     (forall z, res_setHeader injectChunk etag name (HNum z) st = (st, Thrown "TypeError"))) /\
  (forall (h : gmap string HeaderValue) v,
     h !! "content-type" = Some v ->
     let st := main injectChunk etag h in
     parser st = Some Parser_new /\
     (v = HStr "text/html" -> isHtml st = true) /\
     (v <> HStr "text/html" ->
      isHtml st = false /\
      forall s, v = HStr s -> parse_type s = Some "text/html" ->
        isHtml (fst (res_setHeader injectChunk etag "content-type" v st)) = true)).
Proof.
  split.
  - intros st name s Hn r. subst r.
    rewrite (res_setHeader_content_type name s st Hn).
    split; [|split; [|split]].
    + intros ->. now rewrite (string_eqb_true "text/html" "text/html" eq_refl).
    + intros type -> Hne. rewrite (string_eqb_false _ _ Hne).
      assert (H : forall o : option ParserState,
                 parser st = o ->
                 let r := match o with
                          | Some _ => (setHeader name (HStr s) (parser_end st), Returned)
                          | None => (st, Thrown "TypeError")
                          end in
                 isHtml (fst r) = isHtml st /\ parser (fst r) = None /\
                 injections (fst r) = injections st).
      { intros [q|] Hq; cbn; auto. }
      destruct (H (parser st) eq_refl) as (Hh & Hoff & Hinj).
      split; [exact Hh|]. split; [exact Hoff|]. split.
      * intros [q Hq]. now rewrite Hq.
      * intros ops. rewrite <- Hinj. now apply run_parser_off.
    + now intros ->.
    + intros z. unfold res_setHeader. rewrite Hn.
      change (string_eqb "content-type" "content-length") with false.
      change (string_eqb "content-type" "etag") with false.
      change (string_eqb "content-type" "content-type") with true.
      now rewrite andb_false_r.
  - intros h v Hct st.
    destruct (main_fresh h) as (_ & _ & _ & _ & _ & _ & Hp). fold st in Hp.
    split; [exact Hp|]. split.
    + intros ->. now apply main_html.
    + intros Hne.
      assert (Hh : isHtml st = false).
      { subst st. unfold main. set (st0 := mkState _ _ _ _ _ _ _ _ _ _).
        assert (Hct0 : getHeader "content-type" st0 = Some v).
        { unfold getHeader. rewrite <- Hct. now apply attach_headers. }
        assert (Hhas : hasHeader "content-type" st0 = true).
        { unfold hasHeader. unfold getHeader in Hct0. rewrite Hct0.
          apply bool_decide_eq_true_2. eauto. }
        rewrite Hhas, Hct0.
        rewrite bool_decide_eq_false_2 by congruence.
        set (st1 := match getHeader "content-length" (with_isHtml false st0) with
                    | Some v0 => adjustContentLength injectChunk v0 (with_isHtml false st0)
                    | None => with_isHtml false st0
                    end).
        assert (H1 : isHtml st1 = false).
        { subst st1. destruct (getHeader "content-length" (with_isHtml false st0));
            [now rewrite adjustContentLength_isHtml|reflexivity]. }
        rewrite H1. now destruct (getHeader "etag" st1). }
      split; [exact Hh|].
      intros s -> Hparse.
      rewrite (res_setHeader_content_type "content-type" s st eq_refl), Hparse.
      reflexivity.
Qed.

(** C4. Whenever classification is Html and an etag value [E] is set,
    the etag forwarded downstream is [E] followed by the digest of the
    payload: through the wrapped [setHeader] (the header name in any
    case), and for an etag already present when [main] attaches to an
    HTML response. Writing the body afterwards never touches the headers,
    so the suffix stays whether or not a body tag is found. Through both
    entry points the digest is the MD5 of the payload in Base64. *)
Theorem etag_is_suffixed_with_digest :
  (forall st name E,
     isHtml st = true -> toLowerCase name = "etag" ->
     res_setHeader injectChunk etag name (HStr E) st =
       (setHeader name (HStr (E ++ digest injectChunk etag)) st, Returned) /\
     headers (fst (res_setHeader injectChunk etag name (HStr E) st)) !! "etag" =
       Some (HStr (E ++ digest injectChunk etag))) /\
  (forall (h : gmap string HeaderValue) E,
     h !! "content-type" = Some (HStr "text/html") -> h !! "etag" = Some (HStr E) ->
     isHtml (main injectChunk etag h) = true /\
     headers (main injectChunk etag h) !! "etag" = Some (HStr (E ++ digest injectChunk etag))) /\
  (forall st ops,
     forallb is_write_or_end ops = true -> headers (run' st ops) = headers st) /\
  (etag = None \/ etag = Some (md5Base64 injectChunk) ->
   digest injectChunk etag = md5Base64 injectChunk).
Proof.
  split; [|split; [|split; [|exact digest_of_payload]]].
  - intros st name E Hh Hn.
    rewrite (res_setHeader_etag name (HStr E) st Hh Hn eq_refl). split; [reflexivity|].
    cbn [fst template]. rewrite <- Hn. apply setHeader_lookup.
  - intros h E Hct He. destruct (main_html h Hct) as [Hh Hetag]. auto.
  - intros st ops Hops. now apply run_body_headers.
Qed.

(** C5, where the code departs from it. When [end] brings a chunk after
    the locator has been cleared, while a backlog that [len] measures is
    still held, there is one completion call and it carries the old
    backlog only: the backlog with the chunk is cut to [len] bytes, so a
    chunk that is not empty is lost. *)
Theorem end_carries_a_cut_backlog st d rest :
  parser st = None -> refused_encoding st rest = None ->
  buffers st <> [] -> len st = pending_bytes st ->
  let st' := res_end injectChunk (EData d) rest st in
  sent st' = sent st ++ [DEnd (concat (buffers st)) rest] /\
  buffers st' = buffers st ++ [to_buffer d] /\
  (to_buffer d <> [] -> concat (buffers st) <> concat (buffers st')).
Proof.
  intros Hoff Hr Hne Hlen st'. subst st'.
  destruct (res_end_data d rest st) as (d' & Hd' & ->). rewrite <- Hd'.
  rewrite (res_write_accumulates d' rest st Hoff Hr).
  destruct (finish_fields rest (with_buffers (buffers st ++ [to_buffer d']) (with_willEnd true st)))
    as (Hb & _). cbn in Hb.
  split; [|split].
  - unfold finish. cbn [buffers len with_buffers with_willEnd].
    destruct (buffers st ++ [to_buffer d']) as [|x [|y r]] eqn:E.
    + now destruct (buffers st).
    + destruct (buffers st) as [|x' [|y' r']]; [congruence|discriminate E|discriminate E].
    + rewrite <- E, Hlen. unfold pending_bytes. now rewrite Buffer_concat_cut.
  - exact Hb.
  - intros Hd Heq. rewrite Hb, concat_app in Heq. simpl in Heq. rewrite app_nil_r in Heq.
    apply (f_equal length) in Heq. rewrite length_app in Heq.
    destruct (to_buffer d'); [congruence|simpl in Heq; lia].
Qed.

(** C6. A content-length mutation whose value is not a non-negative
    integer raises an error on the error channel instead of throwing: the
    call returns, the message (which opens with the reference to RFC 7230
    and quotes the value as [inspect] prints it) is emitted, and neither
    the header store nor anything else changes. *)
Theorem invalid_content_length_raises_error st name v :
  toLowerCase name = "content-length" -> is_array v = false ->
  (forall z, Number v = NInt z -> (z < 0)%Z) ->
  res_setHeader injectChunk etag name v st = (emit_error (RFC7230_message v) st, Returned) /\
  emitted (fst (res_setHeader injectChunk etag name v st)) = emitted st ++ [RFC7230_message v] /\
  headers (fst (res_setHeader injectChunk etag name v st)) = headers st /\
  String.prefix "According to RFC7230, Content-Length header must be a non-negative integer"
    (RFC7230_message v) = true /\
  (exists pre post : string, RFC7230_message v = (pre ++ inspect v ++ post)%string).
Proof.
  intros Hn Ha Hbad.
  rewrite (res_setHeader_content_length name v st Hn Ha).
  rewrite (adjustContentLength_invalid v st Hbad).
  repeat split. eexists _, _. reflexivity.
Qed.

(** C7. While classification is Html, a write whose encoding argument is
    a non-empty string that does not match [/utf-?8/ui] only emits the
    error naming that encoding: nothing is buffered, nothing is forwarded.
    When classification is not Html, or when a callback stands where the
    encoding would, the guard lets the call through and the call emits
    nothing. *)
Theorem non_utf8_write_is_refused :
  (forall st d enc rest,
     isHtml st = true -> enc <> "" -> utf8_regex_test enc = false ->
     let st' := res_write injectChunk d (AStr enc :: rest) st in
     st' = emit_error (encoding_message enc) st /\
     emitted st' = emitted st ++ [encoding_message enc] /\
     sent st' = sent st /\ buffers st' = buffers st /\ len st' = len st /\
     (exists pre post : string, encoding_message enc = (pre ++ enc ++ post)%string)) /\
  (forall st d rest,
     isHtml st = false \/ (exists f rest', rest = AFn f :: rest') ->
     refused_encoding st rest = None /\
     emitted (res_write injectChunk d rest st) = emitted st).
Proof.
  split.
  - intros st d enc rest Hh Hne Hre st'.
    assert (Hr : refused_encoding st (AStr enc :: rest) = Some enc).
    { unfold refused_encoding. rewrite Hh, Hre, (string_eqb_false enc "" Hne). reflexivity. }
    assert (Hst : st' = emit_error (encoding_message enc) st).
    { subst st'. unfold res_write. now rewrite Hr. }
    rewrite Hst. repeat split. eexists _, _. reflexivity.
  - intros st d rest Hskip.
    assert (Hr : refused_encoding st rest = None).
    { destruct Hskip as [Hh|(f & rest' & ->)]; [|reflexivity].
      unfold refused_encoding. rewrite Hh. now destruct rest as [|[]]. }
    split; [exact Hr|]. now apply res_write_emitted.
Qed.

(** C8, where the code departs from it. When [end] is called after the
    locator has been cleared, the final chunk joins the backlog and [len]
    is not raised: if [len] measured the backlog before and the chunk is
    not empty, it no longer does. An earlier flush of the backlog by
    [write] empties [buffers] and keeps [len] too. *)
Theorem end_accumulation_keeps_len :
  (forall st b rest,
     parser st = None -> refused_encoding st rest = None ->
     let st' := res_end injectChunk (EData (DBuf b)) rest st in
     buffers st' = buffers st ++ [b] /\ len st' = len st /\
     (len st = pending_bytes st -> b <> [] -> len st' <> pending_bytes st')) /\
  (forall st d rest,
     parser st = None -> willEnd st = false -> buffers st <> [] ->
     refused_encoding st rest = None ->
     let st' := res_write injectChunk d rest st in
     buffers st' = [] /\ len st' = len st).
Proof.
  split.
  - intros st b rest Hoff Hr st'.
    assert (Hst : st' = finish rest (with_buffers (buffers st ++ [b]) (with_willEnd true st))).
    { subst st'. unfold res_end. now apply res_write_accumulates. }
    destruct (finish_fields rest (with_buffers (buffers st ++ [b]) (with_willEnd true st)))
      as (Hb & Hl & _).
    rewrite Hst. cbn in Hb, Hl. split; [exact Hb|]. split; [exact Hl|].
    intros Hinv Hne. unfold pending_bytes. rewrite Hb, Hl, Hinv.
    unfold pending_bytes. rewrite concat_app, length_app. simpl. rewrite app_nil_r.
    destruct b; [congruence|simpl; lia].
  - intros st d rest Hoff Hw Hb Hr st'. subst st'.
    destruct (res_write_branch d rest st); try congruence. now split.
Qed.

(** C9. When the tokenizer reports a body tag during a write made while
    classification is not Html, the locator is cleared without a splice
    (the chunk is only kept in the backlog), and no later sequence of
    header-set, write and end calls brings the locator back or splices
    the payload in: a text/html content-type set afterwards comes too
    late. *)
Theorem body_tag_before_html_ends_locator st d rest p :
  parser st = Some p -> isHtml st = false ->
  (exists tag, In tag (fired st p (to_buffer d)) /\ tagName tag = "body") ->
  let st' := res_write injectChunk d rest st in
  parser st' = None /\ injections st' = injections st /\
  buffers st' = buffers st ++ [to_buffer d] /\
  forall ops, parser (run' st' ops) = None /\ injections (run' st' ops) = injections st.
Proof.
  intros Hp Hh Hbody st'.
  assert (Hkeep : isHtml (keep (to_buffer d) st) = false) by exact Hh.
  assert (H : parser st' = None /\ injections st' = injections st /\
              buffers st' = buffers st ++ [to_buffer d]).
  { subst st'. unfold fired in Hbody.
    destruct (res_write_branch d rest st) as [e Hr|q Hr Hq Hw|q Hr Hq Hw|Hr Hq|Hr Hq|Hr Hq];
      try congruence.
    - unfold refused_encoding in Hr. rewrite Hh in Hr. now destruct rest as [|[]].
    - rewrite Hw in Hbody. assert (q = p) as -> by congruence.
      match goal with |- context [call_last _ ?s] =>
        destruct (call_last_fields rest s) as (-> & _ & _ & -> & _ & _ & -> & _) end.
      split; [now apply handler_fold_body_ends|].
      now destruct (handler_fold_not_html (snd (Parser_write p (to_buffer d)))
                 (with_parser (Some (fst (Parser_write p (to_buffer d)))) (keep (to_buffer d) st))
                 Hkeep) as (-> & -> & _).
    - rewrite Hw in Hbody. assert (q = p) as -> by congruence.
      match goal with |- context [finish _ ?s] =>
        destruct (finish_fields rest s) as (-> & _ & _ & -> & _ & _ & -> & _) end.
      split; [reflexivity|]. unfold parser_end. cbn [injections buffers with_parser].
      now destruct (handler_fold_not_html (Parser_parseComplete p (to_buffer d))
                 (keep (to_buffer d) st) Hkeep) as (-> & -> & _). }
  destruct H as (Hoff & Hinj & Hbuf). repeat split; try assumption.
  - now apply run_parser_off.
  - rewrite <- Hinj. now apply run_parser_off.
Qed.

(** C10. Classification never goes back: no sequence of wrapped calls
    clears [isHtml] once it is set. A content-type that is not text/html,
    set while [isHtml] holds, leaves the locator cleared and [isHtml]
    set, and after any further calls an etag is still suffixed with the
    digest and a valid content-length is still raised by the length of
    the payload (for every sum below 2^53, where the addition of the
    code is exact). *)
Theorem classification_is_monotone :
  (forall st ops, isHtml st = true -> isHtml (run' st ops) = true) /\
  (forall st name s type,
     isHtml st = true -> toLowerCase name = "content-type" ->
     parse_type s = Some type -> type <> "text/html" ->
     let st' := fst (res_setHeader injectChunk etag name (HStr s) st) in
     parser st' = None /\ isHtml st' = true /\
     forall ops,
       let st'' := run' st' ops in
       isHtml st'' = true /\
       (forall n E, toLowerCase n = "etag" ->
          headers (fst (res_setHeader injectChunk etag n (HStr E) st'')) !! "etag" =
          Some (HStr (E ++ digest injectChunk etag))) /\
       (forall n v L, toLowerCase n = "content-length" -> is_array v = false ->
          Number v = NInt L -> (0 <= L)%Z ->
          (L + Z.of_nat (length injectChunk) < 2 ^ 53)%Z ->
          headers (fst (res_setHeader injectChunk etag n v st'')) !! "content-length" =
          Some (HStr (decimal (L + Z.of_nat (length injectChunk)))))).
Proof.
  split; [intros; now apply run_isHtml|].
  intros st name s type Hh Hn Hparse Hne st'.
  assert (H' : parser st' = None /\ isHtml st' = true).
  { subst st'. rewrite (res_setHeader_content_type name s st Hn), Hparse.
    rewrite (string_eqb_false _ _ Hne). destruct (parser st) eqn:Hp; cbn; auto. }
  destruct H' as [Hoff Hh']. split; [exact Hoff|]. split; [exact Hh'|].
  intros ops st''.
  assert (Hh'' : isHtml st'' = true) by (subst st''; now apply run_isHtml).
  split; [exact Hh''|]. split.
  - intros n E Hetag.
    rewrite (res_setHeader_etag n (HStr E) st'' Hh'' Hetag eq_refl).
    cbn [fst template]. rewrite <- Hetag. apply setHeader_lookup.
  - intros n v L Hcl Ha Hnum HL Hsafe.
    rewrite (res_setHeader_content_length n v st'' Hcl Ha).
    rewrite (adjustContentLength_html v st'' L Hh'' Hnum HL Hsafe).
    apply (setHeader_lookup "content-length").
Qed.

(** * Further properties of the wrappers *)

(** ** What header calls never touch *)

Lemma res_setHeader_closure name v st :
  let st' := fst (res_setHeader injectChunk etag name v st) in
  buffers st' = buffers st /\ len st' = len st /\ sent st' = sent st /\
  willEnd st' = willEnd st /\ called st' = called st /\ injections st' = injections st /\
  (parser st' = parser st \/ parser st' = None).
Proof.
  unfold res_setHeader. destruct (parser st) as [p|] eqn:Hp.
  all: destruct v as [s|z|l];
    repeat match goal with
           | |- context [if ?c then _ else _] => destruct c
           | |- context [match parse_type ?s with _ => _ end] => destruct (parse_type s)
           end;
    cbn [fst];
    try (unfold adjustContentLength;
         repeat match goal with
                | |- context [match Number ?v with _ => _ end] => destruct (Number v)
                | |- context [if ?c then _ else _] => destruct c
                end);
    cbn; rewrite ?Hp; repeat split; auto.
Qed.

(** ** While the locator runs *)

Lemma onopentag_locating st tag : locating st -> locating (onopentag injectChunk st tag).
Proof.
  intros [Hsome Hle]. unfold locating, onopentag.
  destruct (parser st) as [p|] eqn:Hp; [|rewrite Hp; now split].
  destruct (Hsome ltac:(eauto)) as [Hi Hs].
  destruct (negb (string_eqb _ _)); [rewrite Hp; split; auto|].
  destruct (negb (isHtml st)); cbn.
  - split; [intros [q Hq]; discriminate|exact Hle].
  - split; [intros [q Hq]; discriminate|lia].
Qed.

Lemma handler_fold_locating tags : forall st,
  locating st -> locating (foldl (onopentag injectChunk) st tags).
Proof.
  induction tags as [|tag tags IH]; intros st H; simpl; [exact H|].
  apply IH. now apply onopentag_locating.
Qed.

Lemma off_locating st st' :
  locating st -> parser st' = None -> injections st' = injections st -> locating st'.
Proof.
  intros [_ Hle] Hoff Hi. split; [intros [q Hq]; congruence|now rewrite Hi].
Qed.

Lemma res_write_locating d rest st :
  locating st -> locating (res_write injectChunk d rest st).
Proof.
  intros H.
  destruct (parser st) as [p|] eqn:Hp.
  2: { destruct (res_write_parser_off d rest st Hp) as [Hoff Hi].
       now apply (off_locating st). }
  destruct (res_write_branch d rest st) as [e _|q _ Hq _|q _ Hq _|_ Hq _ _|_ Hq _|_ Hq _ _];
    try congruence.
  - exact H.
  - match goal with |- locating (call_last _ ?s) => assert (Hs : locating s) end.
    { apply handler_fold_locating. destruct H as [Hsome Hle]. split; [|exact Hle].
      intros _. apply Hsome. rewrite Hp. eauto. }
    unfold locating in *.
    match goal with |- context [call_last _ ?s] =>
      destruct (call_last_fields rest s) as (_ & _ & _ & -> & _ & _ & -> & -> & _) end.
    exact Hs.
  - match goal with |- locating (finish _ (parser_end ?s)) => assert (Hs : locating s) end.
    { apply handler_fold_locating. destruct H as [Hsome Hle]. split; [|exact Hle].
      intros _. apply Hsome. rewrite Hp. eauto. }
    split.
    + match goal with |- context [finish _ ?s] =>
        destruct (finish_fields rest s) as (_ & _ & _ & -> & _) end.
      intros [q' Hq']. discriminate.
    + match goal with |- context [finish _ ?s] =>
        destruct (finish_fields rest s) as (_ & _ & _ & _ & _ & _ & -> & _) end.
      exact (proj2 Hs).
Qed.

Lemma step_locating st op : locating st -> locating (step' st op).
Proof.
  intros H. destruct op as [n v|d r|d r]; simpl.
  - destruct (res_setHeader_closure n v st) as (_ & _ & Hs & _ & _ & Hi & Hp).
    destruct H as [Hsome Hle]. split; [|now rewrite Hi].
    intros Hq. rewrite Hi, Hs. apply Hsome.
    destruct Hp as [Hp|Hp]; rewrite Hp in Hq; [exact Hq|now destruct Hq].
  - now apply res_write_locating.
  - unfold res_end. destruct d as [|[b|[|c s]]|f]; now apply res_write_locating.
Qed.

Lemma run_locating ops : forall st, locating st -> locating (run' st ops).
Proof.
  induction ops as [|op ops IH]; intros st H; simpl; [exact H|].
  apply IH. now apply step_locating.
Qed.

Lemma main_locating (h : gmap string HeaderValue) : locating (main injectChunk etag h).
Proof.
  destruct (main_fresh h) as (_ & _ & _ & Hs & _ & Hi & _).
  split; [now intros _|]. rewrite Hi. lia.
Qed.

(** X4. From [main] on, whatever is called and in whatever order, the
    payload is spliced in at most once. *)
Theorem at_most_one_splice (h : gmap string HeaderValue) ops :
  injections (run' (main injectChunk etag h) ops) <= 1.
Proof. apply (run_locating ops _ (main_locating h)). Qed.

(** X5. As long as the locator is still active nothing has been handed
    to the original [write] or [end], and nothing has been spliced. *)
Theorem nothing_sent_while_locating (h : gmap string HeaderValue) ops :
  is_Some (parser (run' (main injectChunk etag h) ops)) ->
  sent (run' (main injectChunk etag h) ops) = [] /\
  injections (run' (main injectChunk etag h) ops) = 0.
Proof.
  intros Hp. destruct (run_locating ops _ (main_locating h)) as [Hsome _].
  destruct (Hsome Hp). now split.
Qed.

(** ** Once [end] has been called *)

Lemma step_ending st op :
  willEnd st = true ->
  willEnd (step' st op) = true /\
  exists ends, sent (step' st op) = sent st ++ ends /\ forallb is_end ends = true.
Proof.
  intros Hw.
  assert (Hwrite : forall d r s, willEnd s = true -> sent s = sent st ->
            willEnd (res_write injectChunk d r s) = true /\
            exists ends, sent (res_write injectChunk d r s) = sent st ++ ends /\
                         forallb is_end ends = true).
  { intros d r s Hs Hsent. destruct (refused_encoding s r) as [e|] eqn:Hr.
    - unfold res_write. rewrite Hr. cbn. split; [exact Hs|].
      exists []. now rewrite app_nil_r.
    - destruct (res_write_completion d r s Hr) as (Hend & _ & Hwill).
      split; [now rewrite Hwill|]. destruct (Hend Hs) as [chunk ->].
      exists [DEnd chunk r]. now rewrite Hsent. }
  destruct op as [n v|d r|d r]; simpl.
  - destruct (res_setHeader_closure n v st) as (_ & _ & Hs & Hwill & _).
    split; [now rewrite Hwill|]. exists []. now rewrite app_nil_r.
  - now apply Hwrite.
  - unfold res_end. destruct d as [|[b|[|c s]]|f]; now apply Hwrite.
Qed.

(** X9. Once [end] has been called, [willEnd] stays set and whatever is
    called afterwards reaches the transport through the original [end]
    only: the original [write] is never called again. *)
Theorem once_ending_only_end ops : forall st,
  willEnd st = true ->
  willEnd (run' st ops) = true /\
  exists ends, sent (run' st ops) = sent st ++ ends /\ forallb is_end ends = true.
Proof.
  induction ops as [|op ops IH]; intros st Hw; simpl.
  - split; [exact Hw|]. exists []. now rewrite app_nil_r.
  - destruct (step_ending st op Hw) as (Hw1 & ends1 & Hs1 & He1).
    destruct (IH _ Hw1) as (Hw2 & ends2 & Hs2 & He2).
    split; [exact Hw2|]. exists (ends1 ++ ends2).
    rewrite Hs2, Hs1, <- app_assoc. split; [reflexivity|].
    rewrite forallb_app. now rewrite He1, He2.
Qed.

(** X16. An [end] that the encoding guard refuses completes nothing and
    emits the error, but has already set [willEnd]: the next write that
    the guard accepts is handed to the original [end]. *)
Theorem refused_end_still_ends st d enc rest :
  isHtml st = true -> enc <> "" -> utf8_regex_test enc = false ->
  let st' := res_end injectChunk (EData d) (AStr enc :: rest) st in
  st' = emit_error (encoding_message enc) (with_willEnd true st) /\
  sent st' = sent st /\ willEnd st' = true /\
  forall d' rest', refused_encoding st rest' = None ->
    exists chunk, sent (res_write injectChunk d' rest' st') = sent st ++ [DEnd chunk rest'].
Proof.
  intros Hh Hne Hre st'.
  assert (Hr : refused_encoding (with_willEnd true st) (AStr enc :: rest) = Some enc).
  { unfold refused_encoding. cbn [isHtml with_willEnd].
    rewrite Hh, Hre, (string_eqb_false enc "" Hne). reflexivity. }
  assert (Hst : st' = emit_error (encoding_message enc) (with_willEnd true st)).
  { subst st'. destruct (res_end_data d (AStr enc :: rest) st) as (d0 & _ & ->).
    unfold res_write. now rewrite Hr. }
  rewrite Hst. split; [reflexivity|]. split; [reflexivity|]. split; [reflexivity|].
  intros d' rest' Hr'.
  exact (proj1 (res_write_completion d' rest'
                  (emit_error (encoding_message enc) (with_willEnd true st)) Hr') eq_refl).
Qed.

(** ** Callbacks *)

Lemma onopentag_keeps_called st tag : called (onopentag injectChunk st tag) = called st.
Proof. handler_cases st. Qed.

(** X10. A write that the guard accepts does one of two things with its
    trailing arguments. While the locator is active and [end] has not
    been called, it hands nothing downstream and calls the last argument
    itself when that is a function. Otherwise it calls nothing itself and
    makes exactly one downstream call, which carries all the trailing
    arguments. So a callback is never dropped and never owed twice. *)
Theorem write_acknowledges_once d rest st :
  refused_encoding st rest = None ->
  let st' := res_write injectChunk d rest st in
  (is_Some (parser st) /\ willEnd st = false /\ sent st' = sent st /\
   called st' = called st ++ match last rest with Some (AFn f) => [f] | _ => [] end) \/
  ((parser st = None \/ willEnd st = true) /\ called st' = called st /\
   exists c, sent st' = sent st ++ [c] /\ rest_of c = rest).
Proof.
  intros Hr st'. subst st'.
  destruct (res_write_branch d rest st) as [e He|q _ Hq Hw|q _ Hq Hw|_ Hq Hw _|_ Hq Hw|_ Hq Hw _];
    try congruence.
  - left. split; [rewrite Hq; eauto|]. split; [exact Hw|].
    unfold call_last.
    destruct (last rest) as [[e|f|]|]; cbn [sent called with_called];
      rewrite ?app_nil_r, (handler_fold_preserves sent onopentag_sent),
              (handler_fold_preserves called onopentag_keeps_called);
      now split.
  - right. split; [now right|].
    match goal with |- context [finish _ (parser_end ?s)] =>
      assert (Hc : called (finish rest (parser_end s)) = called s
                   /\ sent s = sent st /\ called s = called st) end.
    { split; [unfold finish; now destruct (buffers _) as [|? [|? ?]]|].
      split.
      - now rewrite (handler_fold_preserves sent onopentag_sent).
      - now rewrite (handler_fold_preserves called onopentag_keeps_called). }
    destruct Hc as (Hc1 & Hs & Hc2). split; [now rewrite Hc1|].
    match goal with |- context [finish _ ?s] => destruct (finish_sent rest s) as [chunk Hf] end.
    exists (DEnd chunk rest). rewrite Hf. cbn [sent parser_end with_parser].
    now rewrite Hs.
  - right. split; [now left|]. split; [reflexivity|]. eexists. split; reflexivity.
  - right. split; [now left|].
    split; [unfold finish; now destruct (buffers _) as [|? [|? ?]]|].
    match goal with |- context [finish _ ?s] => destruct (finish_sent rest s) as [chunk Hf] end.
    exists (DEnd chunk rest). now rewrite Hf.
  - right. split; [now left|]. split; [reflexivity|]. eexists. split; reflexivity.
Qed.

(** ** A response that is not HTML *)

Lemma not_html_accepts st rest : isHtml st = false -> refused_encoding st rest = None.
Proof. intros Hh. unfold refused_encoding. rewrite Hh. now destruct rest as [|[]]. Qed.

Lemma step_not_html_before st op : isHtml (step' st op) = false -> isHtml st = false.
Proof.
  intros H. destruct (isHtml st) eqn:Hh; [|reflexivity].
  now rewrite (step_isHtml st op Hh) in H.
Qed.

Lemma run_not_html_before ops : forall st, isHtml (run' st ops) = false -> isHtml st = false.
Proof.
  intros st H. destruct (isHtml st) eqn:Hh; [|reflexivity].
  now rewrite (run_isHtml ops st Hh) in H.
Qed.

Lemma Buffer_concat_app_exact (l : list Buffer) (b : Buffer) :
  Buffer_concat (l ++ [b]) (length (concat l) + length b) = concat l ++ b.
Proof.
  pose proof (Buffer_concat_exact (l ++ [b])) as H.
  rewrite concat_app, length_app in H. simpl in H. now rewrite !app_nil_r in H.
Qed.

(** The last statement group of [write] hands the whole backlog over
    when [len] measures it. *)
Lemma finish_delivers_all rest st :
  len st = pending_bytes st -> delivered (finish rest st) = held st.
Proof.
  intros Hl. unfold finish, held, delivered.
  destruct (buffers st) as [|b [|b' l]] eqn:Hb; cbn [sent end_ with_sent];
    rewrite map_app, concat_app; cbn [map]; f_equal.
  cbn [concat]. rewrite app_nil_r, Hl. unfold pending_bytes. rewrite Hb.
  apply Buffer_concat_exact.
Qed.

Lemma handler_fold_not_html_sent tags st :
  isHtml st = false ->
  let st' := foldl (onopentag injectChunk) st tags in
  buffers st' = buffers st /\ len st' = len st /\ sent st' = sent st /\
  willEnd st' = willEnd st.
Proof.
  intros Hh st'. subst st'.
  destruct (handler_fold_not_html tags st Hh) as (_ & -> & ->).
  now rewrite (handler_fold_preserves sent onopentag_sent),
              (handler_fold_preserves willEnd onopentag_willEnd).
Qed.

(** A write on a response that is not HTML and not ending keeps every
    byte: what was held before, then the chunk. *)
Lemma res_write_intact d rest st :
  isHtml st = false -> intact st ->
  intact (res_write injectChunk d rest st) /\
  held (res_write injectChunk d rest st) = held st ++ to_buffer d.
Proof.
  intros Hh [Hw Hlen].
  destruct (res_write_branch d rest st) as
    [e He|q _ Hq _|q _ _ Hw'|_ Hq _ Hb|_ _ Hw'|_ Hq _ Hb]; try congruence.
  - rewrite (not_html_accepts st rest Hh) in He. discriminate.
  - destruct Hlen as [Hlen|[_ Hoff]]; [|congruence].
    match goal with |- context [call_last _ (foldl _ ?s0 ?tags)] =>
      destruct (call_last_fields rest (foldl (onopentag injectChunk) s0 tags))
        as (Hb1 & Hl1 & _ & _ & _ & _ & _ & Hs1 & Hw1);
      destruct (handler_fold_not_html_sent tags s0 Hh) as (Hb2 & Hl2 & Hs2 & Hw2)
    end.
    cbn [buffers len sent willEnd keep with_parser with_buffers with_len] in Hb2, Hl2, Hs2, Hw2.
    unfold intact, held, delivered, pending_bytes in *.
    rewrite Hb1, Hl1, Hs1, Hw1, Hb2, Hl2, Hs2, Hw2.
    rewrite concat_app, length_app. simpl. rewrite app_nil_r.
    split; [split; [exact Hw|left; lia]|now rewrite app_assoc].
  - destruct Hlen as [Hlen|[Hb' _]]; [|congruence].
    unfold intact, held, delivered, pending_bytes in *. cbn.
    rewrite Hlen, Buffer_concat_app_exact, map_app, concat_app. cbn.
    rewrite !app_nil_r. split; [split; [exact Hw|now right]|now rewrite app_assoc].
  - unfold intact, held, delivered, pending_bytes in *. cbn.
    rewrite Hb, map_app, concat_app. cbn. rewrite !app_nil_r.
    split; [split; [exact Hw|now right]|reflexivity].
Qed.

Lemma step_intact st op :
  is_end_op op = false -> isHtml (step' st op) = false -> intact st ->
  intact (step' st op) /\ held (step' st op) = held st ++ converted [op].
Proof.
  intros Hop Hh' Hin. pose proof (step_not_html_before st op Hh') as Hh.
  destruct op as [n v|d r|d r]; [| |discriminate]; unfold converted; cbn [step map concat].
  - destruct (res_setHeader_closure n v st) as (Hb & Hl & Hs & Hw & _ & _ & Hp).
    unfold intact, held, delivered, pending_bytes in *.
    rewrite Hb, Hl, Hs, Hw, !app_nil_r. split; [|reflexivity].
    destruct Hin as [Hw0 [Hlen|[Hb0 Hoff]]]; split; auto.
    right. split; [exact Hb0|]. destruct Hp as [Hp|Hp]; congruence.
  - rewrite app_nil_r. now apply res_write_intact.
Qed.

Lemma run_intact ops : forall st,
  no_end ops = true -> isHtml (run' st ops) = false -> intact st ->
  intact (run' st ops) /\ held (run' st ops) = held st ++ converted ops.
Proof.
  induction ops as [|op ops IH]; intros st Hne Hh Hin.
  - cbn. unfold converted. cbn. now rewrite app_nil_r.
  - cbn [no_end forallb] in Hne. apply andb_prop in Hne as [Hop Hne].
    apply negb_true_iff in Hop. cbn [run foldl] in *.
    change (foldl (step injectChunk etag) ?s ?l) with (run' s l) in *.
    pose proof (run_not_html_before ops _ Hh) as Hh1.
    destruct (step_intact st op Hop Hh1 Hin) as [Hin1 Hheld1].
    destruct (IH _ Hne Hh Hin1) as [Hin2 Hheld2].
    split; [exact Hin2|]. rewrite Hheld2, Hheld1, <- app_assoc. f_equal.
    unfold converted. cbn [map concat]. now rewrite app_nil_r.
Qed.

Lemma main_intact (h : gmap string HeaderValue) :
  intact (main injectChunk etag h) /\ held (main injectChunk etag h) = [].
Proof.
  destruct (main_fresh h) as (Hb & Hl & Hw & Hs & _).
  unfold intact, held, delivered, pending_bytes. rewrite Hb, Hl, Hw, Hs. auto.
Qed.

Lemma chunk_bytes_converted d rest b : chunk_bytes d rest = Some b -> to_buffer d = b.
Proof.
  destruct d as [b0|s0]; cbn; [congruence|].
  destruct (names_other_encoding rest); congruence.
Qed.

Lemma written_converted ops : forall w, written ops = Some w -> converted ops = w.
Proof.
  induction ops as [|op ops IH]; intros w Hw; [injection Hw as <-; reflexivity|].
  unfold converted in *. destruct op as [n v|d r|d r]; cbn [written map concat] in *.
  - now apply IH.
  - destruct (chunk_bytes d r) as [b|] eqn:Hb; [|discriminate].
    destruct (written ops) as [w'|]; [|discriminate]. injection Hw as <-.
    now rewrite (chunk_bytes_converted d r b Hb), (IH w' eq_refl).
  - now apply IH.
Qed.

(** X7. On a response that is never classified as HTML, no byte is lost
    or altered before [end], as long as every chunk written is a Buffer
    or a string in UTF-8 (no encoding named, or utf8 or utf-8): after
    any header calls and such writes, the bytes handed downstream
    followed by the backlog are the bytes those chunks stand for, in
    order. If [end] then comes with such a chunk while the locator is
    still active, or with no backlog held, the transport has received
    exactly those bytes followed by the bytes of the chunk given to
    [end]. A string written in another encoding is outside this
    statement: [write] reads every string as UTF-8. *)
Theorem not_html_keeps_every_byte (h : gmap string HeaderValue) ops w :
  no_end ops = true -> written ops = Some w ->
  isHtml (run' (main injectChunk etag h) ops) = false ->
  let st := run' (main injectChunk etag h) ops in
  delivered st ++ concat (buffers st) = w /\
  forall d rest b,
    chunk_bytes d rest = Some b ->
    is_Some (parser st) \/ buffers st = [] ->
    delivered (res_end injectChunk (EData d) rest st) = w ++ b.
Proof.
  intros Hne Hwritten Hh st.
  destruct (main_intact h) as [Hin0 Hheld0].
  destruct (run_intact ops _ Hne Hh Hin0) as [[Hw Hlen] Hheld].
  fold st in Hw, Hlen, Hheld. rewrite Hheld0 in Hheld. cbn [app] in Hheld.
  rewrite (written_converted ops w Hwritten) in Hheld.
  split; [exact Hheld|].
  intros d rest b Hchunk Hcase. rewrite <- Hheld, <- (chunk_bytes_converted d rest b Hchunk).
  destruct (res_end_data d rest st) as (d' & Hd' & ->). rewrite <- Hd'.
  assert (Hr : refused_encoding (with_willEnd true st) rest = None)
    by now apply not_html_accepts.
  destruct (res_write_branch d' rest (with_willEnd true st)) as
    [e He|q _ _ Hw'|q _ Hq _|_ _ Hw'|_ Hq _|_ _ Hw']; try congruence; try discriminate Hw'.
  - destruct Hlen as [Hlen|[_ Hoff]]; [|cbn in Hq; congruence].
    match goal with |- context [finish _ (parser_end (foldl _ ?s0 ?tags))] =>
      destruct (handler_fold_not_html_sent tags s0 Hh) as (Hb2 & Hl2 & Hs2 & _);
      rewrite (finish_delivers_all rest (parser_end (foldl (onopentag injectChunk) s0 tags)))
    end.
    + unfold held, delivered, parser_end. cbn [buffers sent with_parser].
      rewrite Hb2, Hs2. cbn. rewrite concat_app. cbn. now rewrite app_nil_r, app_assoc.
    + unfold pending_bytes, parser_end. cbn [buffers len with_parser].
      rewrite Hb2, Hl2. cbn. rewrite concat_app, length_app. cbn. rewrite app_nil_r.
      unfold pending_bytes in Hlen. lia.
  - cbn in Hq. destruct Hcase as [[q' Hq']|Hb]; [congruence|].
    unfold finish. cbn [buffers with_buffers with_willEnd]. rewrite Hb.
    unfold held, delivered. cbn. rewrite Hb, map_app, concat_app. cbn.
    now rewrite !app_nil_r.
Qed.

(** ** Attaching *)

Lemma adjustContentLength_not_html_headers v st :
  isHtml st = false -> headers (adjustContentLength injectChunk v st) = headers st.
Proof.
  intros Hh. unfold adjustContentLength. destruct (Number v); [|reflexivity].
  destruct (z <? 0)%Z; [reflexivity|]. now rewrite Hh.
Qed.

(** X11. [main] sets and removes its temporary header, so a header of
    that name never survives attaching. On a response that does not
    carry that name and whose content-type is missing or is not the
    string text/html, attaching leaves every header as it was, and the
    closure starts not HTML, with an active locator and nothing buffered
    or sent. With no content-type at all, nothing is emitted either. *)
Theorem attach_leaves_non_html_alone (h : gmap string HeaderValue) :
  headers (main injectChunk etag h) !! TMP_HEADER_NAME = None /\
  (h !! TMP_HEADER_NAME = None -> h !! "content-type" <> Some (HStr "text/html") ->
   let st := main injectChunk etag h in
   headers st = h /\ isHtml st = false /\ parser st = Some Parser_new /\
   buffers st = [] /\ sent st = [] /\
   (h !! "content-type" = None -> emitted st = [])).
Proof.
  split.
  - unfold main. set (st0 := mkState _ _ _ _ _ _ _ _ _ _).
    assert (H0 : headers st0 !! TMP_HEADER_NAME = None) by apply lookup_delete_eq.
    set (st1 := if hasHeader "content-type" st0 then _ else st0).
    assert (H1 : headers st1 !! TMP_HEADER_NAME = None).
    { subst st1. destruct (hasHeader "content-type" st0); [|exact H0].
      destruct (getHeader "content-length" _) as [v|]; [|exact H0].
      now rewrite adjustContentLength_other_header by discriminate. }
    destruct (getHeader "etag" st1); [|exact H1]. destruct (isHtml st1); [|exact H1].
    cbn. now rewrite lookup_insert_ne by discriminate.
  - intros Htmp Hct st.
    destruct (main_fresh h) as (Hb & _ & _ & Hs & _ & _ & Hp). fold st in Hb, Hs, Hp.
    enough (H : headers st = h /\ isHtml st = false /\
                (h !! "content-type" = None -> emitted st = [])) by tauto.
    subst st. unfold main. set (st0 := mkState _ _ _ _ _ _ _ _ _ _).
    assert (H0 : headers st0 = h) by (cbn; now apply delete_insert_id).
    assert (Hct0 : getHeader "content-type" st0 = h !! "content-type")
      by (unfold getHeader; now rewrite H0).
    assert (Hhas : hasHeader "content-type" st0
                   = bool_decide (is_Some (h !! "content-type")))
      by (unfold hasHeader; now rewrite H0).
    rewrite Hhas, Hct0.
    destruct (h !! "content-type") as [ct|] eqn:Ect.
    + rewrite bool_decide_eq_true_2 by eauto.
      rewrite bool_decide_eq_false_2 by exact Hct.
      set (st := with_isHtml false st0).
      set (st1 := match getHeader "content-length" st with
                  | Some v => adjustContentLength injectChunk v st
                  | None => st
                  end).
      assert (H1 : headers st1 = h /\ isHtml st1 = false).
      { subst st1. destruct (getHeader "content-length" st); [|now split].
        rewrite adjustContentLength_isHtml, adjustContentLength_not_html_headers; now split. }
      destruct H1 as [Hh1 Hi1]. rewrite Hi1.
      destruct (getHeader "etag" st1); split; try split; try assumption;
        discriminate.
    + rewrite bool_decide_eq_false_2 by (intros [? ?]; discriminate).
      destruct (getHeader "etag" st0); cbn; auto.
Qed.

(** X12. The content-length a response already has when [main] attaches:
    if the content-type reads text/html and the length is a non-negative
    integer [L], the header becomes [L] plus the length of the payload,
    for every sum below 2^53, where the addition of the code is exact;
    if it is not such an integer, the RFC 7230 error is emitted and the
    header stays as it was. Without a content-type the length is not
    looked at. *)
Theorem attach_adjusts_content_length (h : gmap string HeaderValue) v :
  h !! "content-length" = Some v ->
  let st := main injectChunk etag h in
  (h !! "content-type" = Some (HStr "text/html") ->
   (forall L, Number v = NInt L -> (0 <= L)%Z ->
      (L + Z.of_nat (length injectChunk) < 2 ^ 53)%Z ->
      headers st !! "content-length" =
        Some (HStr (decimal (L + Z.of_nat (length injectChunk)))) /\ emitted st = []) /\
   ((forall z, Number v = NInt z -> (z < 0)%Z) ->
      headers st !! "content-length" = Some v /\ emitted st = [RFC7230_message v])) /\
  (h !! "content-type" = None ->
   headers st !! "content-length" = Some v /\ emitted st = []).
Proof.
  intros Hcl st. subst st. unfold main. set (st0 := mkState _ _ _ _ _ _ _ _ _ _).
  assert (Hlook : forall name, name <> TMP_HEADER_NAME -> headers st0 !! name = h !! name)
    by (intros; now apply attach_headers).
  assert (Hcl0 : getHeader "content-length" st0 = Some v)
    by (unfold getHeader; rewrite <- Hcl; now apply Hlook).
  assert (Hct0 : getHeader "content-type" st0 = h !! "content-type")
    by (unfold getHeader; now apply Hlook).
  assert (Hhas : hasHeader "content-type" st0
                 = bool_decide (is_Some (h !! "content-type"))).
  { unfold hasHeader. unfold getHeader in Hct0. now rewrite Hct0. }
  rewrite Hhas, Hct0.
  assert (Hetag : forall st1 : State,
            let st2 := match getHeader "etag" st1 with
                       | Some e => if isHtml st1
                                   then setHeader "etag" (HStr (template e ++ digest injectChunk etag)) st1
                                   else st1
                       | None => st1
                       end in
            headers st2 !! "content-length" = headers st1 !! "content-length" /\
            emitted st2 = emitted st1).
  { intros st1. cbv zeta. destruct (getHeader "etag" st1); [|now split].
    destruct (isHtml st1); [|now split]. cbn. now rewrite lookup_insert_ne by discriminate. }
  cbv zeta in Hetag.
  split.
  - intros Hct. rewrite Hct. rewrite bool_decide_eq_true_2 by eauto.
    rewrite bool_decide_eq_true_2 by reflexivity.
    change (getHeader "content-length" (with_isHtml true st0))
      with (getHeader "content-length" st0). rewrite Hcl0.
    split.
    + intros L Hn HL Hsafe.
      rewrite (adjustContentLength_html v (with_isHtml true st0) L eq_refl Hn HL Hsafe).
      destruct (Hetag (setHeader "content-length"
                         (HStr (decimal (L + Z.of_nat (length injectChunk))))
                         (with_isHtml true st0))) as [-> ->].
      split; [apply (setHeader_lookup "content-length")|reflexivity].
    + intros Hbad. rewrite (adjustContentLength_invalid v (with_isHtml true st0) Hbad).
      destruct (Hetag (emit_error (RFC7230_message v) (with_isHtml true st0))) as [-> ->].
      split; [|reflexivity]. cbn. rewrite <- Hcl. now apply Hlook.
  - intros Hct. rewrite Hct. rewrite bool_decide_eq_false_2 by (intros [? ?]; discriminate).
    destruct (Hetag st0) as [-> ->]. split; [|reflexivity]. rewrite <- Hcl. now apply Hlook.
Qed.

(** ** The encoding guard *)

Lemma append_cons c (a b : string) : (String c a ++ b)%string = String c (a ++ b).
Proof. reflexivity. Qed.

Lemma append_empty (b : string) : ("" ++ b)%string = b.
Proof. reflexivity. Qed.

Lemma toLowerCase_app a b : toLowerCase (a ++ b) = (toLowerCase a ++ toLowerCase b)%string.
Proof.
  induction a as [|c a IH]; [reflexivity|].
  rewrite append_cons. cbn [toLowerCase]. now rewrite append_cons, IH.
Qed.

Lemma prefix_app (p s : string) : String.prefix p (p ++ s) = true.
Proof.
  induction p as [|c p IH]; [rewrite append_empty; now destruct s|].
  rewrite append_cons. cbn [String.prefix].
  destruct (Ascii.ascii_dec c c); [exact IH|congruence].
Qed.

Lemma matches_somewhere_app pat pre post :
  matches_somewhere pat (pre ++ pat ++ post) = true.
Proof.
  induction pre as [|c pre IH].
  - rewrite append_empty. destruct (pat ++ post)%string eqn:E; cbn [matches_somewhere];
      rewrite <- E, prefix_app; reflexivity.
  - rewrite append_cons. cbn [matches_somewhere]. rewrite IH. apply orb_true_r.
Qed.

(** X13. The guard of [write] looks for utf8 or utf-8 anywhere in the
    encoding name and in any letter case: a name that contains either
    is never refused, whatever stands before or after it, and such a
    write emits no error. *)
Theorem utf8_anywhere_is_accepted st d (before name after : string) rest :
  toLowerCase name = "utf8" \/ toLowerCase name = "utf-8" ->
  utf8_regex_test (before ++ name ++ after) = true /\
  refused_encoding st (AStr (before ++ name ++ after) :: rest) = None /\
  emitted (res_write injectChunk d (AStr (before ++ name ++ after) :: rest) st) = emitted st.
Proof.
  intros Hname.
  assert (Ht : utf8_regex_test (before ++ name ++ after) = true).
  { unfold utf8_regex_test. rewrite !toLowerCase_app.
    destruct Hname as [-> | ->]; rewrite matches_somewhere_app;
      [reflexivity|apply orb_true_r]. }
  assert (Hr : refused_encoding st (AStr (before ++ name ++ after) :: rest) = None).
  { unfold refused_encoding. rewrite Ht. cbn [negb]. now rewrite andb_false_r. }
  split; [exact Ht|]. split; [exact Hr|]. now apply res_write_emitted.
Qed.

(** ** Header calls *)

(** X17. No header call touches the body: the backlog, [len], the calls
    made downstream, [willEnd] and the callbacks called stay as they
    are, and nothing is spliced. A call with an array value, or with a
    name other than content-length and content-type that is not an etag
    on an HTML response, returns after storing exactly the value given
    under the lower-cased name, and leaves every other header alone. *)
Theorem headers_stay_out_of_the_body st name v :
  let st' := fst (res_setHeader injectChunk etag name v st) in
  (buffers st' = buffers st /\ len st' = len st /\ sent st' = sent st /\
   willEnd st' = willEnd st /\ called st' = called st /\ injections st' = injections st) /\
  (is_array v = true \/
   (toLowerCase name <> "content-length" /\ toLowerCase name <> "content-type" /\
    (toLowerCase name <> "etag" \/ isHtml st = false)) ->
   res_setHeader injectChunk etag name v st = (setHeader name v st, Returned) /\
   headers st' !! toLowerCase name = Some v /\
   forall other, other <> toLowerCase name -> headers st' !! other = headers st !! other).
Proof.
  intros st'. split.
  - destruct (res_setHeader_closure name v st) as (? & ? & ? & ? & ? & ? & _). auto 10.
  - intros Hcase.
    assert (Heq : res_setHeader injectChunk etag name v st = (setHeader name v st, Returned)).
    { unfold res_setHeader. destruct Hcase as [Ha|(Hcl & Hct & Het)].
      - destruct v; try discriminate. reflexivity.
      - rewrite (string_eqb_false _ _ Hcl), (string_eqb_false _ _ Hct).
        assert (Hno : isHtml st && string_eqb (toLowerCase name) "etag" = false).
        { destruct Het as [Het|Hh]; [rewrite (string_eqb_false _ _ Het); apply andb_false_r
                                    |now rewrite Hh]. }
        rewrite Hno. now destruct v. }
    subst st'. rewrite Heq. split; [reflexivity|]. split; [apply setHeader_lookup|].
    intros other Hne. cbn. rewrite lookup_insert_ne; [reflexivity|]. congruence.
Qed.

(** ** After the locator *)

(** X6. Once the locator is cleared and the response is not ending,
    nothing more is held back. When [len] measures the backlog, the
    next write hands the backlog and its chunk to the original [write]
    in one piece, every later write is forwarded as it is, and [end]
    closes with its chunk: the transport receives the backlog, the
    chunks written and the chunk given to [end], in order. The same
    holds with no write at all when there is no backlog. *)
Theorem cleared_locator_holds_nothing_back ws st d rest :
  parser st = None -> willEnd st = false ->
  len st = pending_bytes st \/ buffers st = [] ->
  ws <> [] \/ buffers st = [] ->
  Forall (fun w => refused_encoding st (snd w) = None) ws ->
  refused_encoding st rest = None ->
  delivered (run' st (map (fun w => Write (fst w) (snd w)) ws ++ [End (EData d) rest])) =
  delivered st ++ concat (buffers st) ++ concat (map (fun w => to_buffer (fst w)) ws)
  ++ to_buffer d.
Proof.
  intros Hoff Hw Hlen Hcase Hws Hr.
  destruct (buffers st) as [|b0 bs] eqn:Hb.
  - cbn [concat app]. now apply passes_through.
  - destruct Hlen as [Hlen|]; [|discriminate]. destruct Hcase as [Hne|]; [|discriminate].
    destruct ws as [|[d0 r0] ws]; [now elim Hne|].
    inversion Hws as [|w ws' Hr0 Hws0]; subst. cbn [fst snd] in Hr0.
    cbn [map app run foldl step fst snd].
    change (foldl (step injectChunk etag) ?s ?l) with (run' s l).
    assert (Hst1 : res_write injectChunk d0 r0 st =
                   write (Buffer_concat (buffers st ++ [to_buffer d0])
                            (len st + length (to_buffer d0))) r0 (with_buffers [] st)).
    { destruct (res_write_branch d0 r0 st); congruence. }
    rewrite Hst1, Hlen. unfold pending_bytes. rewrite Buffer_concat_app_exact, Hb.
    rewrite passes_through; try reflexivity; try assumption.
    unfold delivered. cbn [sent write with_sent with_buffers].
    rewrite map_app, concat_app. cbn [map concat]. rewrite app_nil_r.
    now rewrite <- !app_assoc.
Qed.

(** X19. A content-type that is not text/html, set once the locator is
    cleared, throws and sets nothing: the wrapper calls [parser.end()]
    on the cleared locator before it reaches the original [setHeader].
    The locator stays cleared under any later calls, so from the splice,
    or from the first content-type that is not text/html, on, every such
    call throws and leaves the response as it was. *)
Theorem plain_content_type_after_locator_throws st ops name s t :
  parser st = None ->
  toLowerCase name = "content-type" -> parse_type s = Some t -> t <> "text/html" ->
  let st' := run' st ops in
  res_setHeader injectChunk etag name (HStr s) st' = (st', Thrown "TypeError").
Proof.
  intros Hoff Hn Hs Ht st'.
  assert (Hoff' : parser st' = None) by now apply run_parser_off.
  unfold res_setHeader. rewrite Hn, Hs, Hoff', (string_eqb_false _ _ Ht).
  change (string_eqb "content-type" "content-length") with false.
  change (string_eqb "content-type" "etag") with false.
  change (string_eqb "content-type" "content-type") with true.
  now rewrite andb_false_r.
Qed.

End Properties.

(** * The exported functions *)

Section ExportsProperties.

Context `{Ext : Externals}.
Variable inspectWithKind : JSValue -> string.

Lemma main_digest b e1 e2 h :
  digest b e1 = digest b e2 -> main b e1 h = main b e2 h.
Proof. intros Hd. unfold main. now rewrite Hd. Qed.

Lemma res_setHeader_digest b e1 e2 name v st :
  digest b e1 = digest b e2 -> res_setHeader b e1 name v st = res_setHeader b e2 name v st.
Proof. intros Hd. unfold res_setHeader. now rewrite Hd. Qed.

Lemma run_digest b e1 e2 ops st :
  digest b e1 = digest b e2 -> run b e1 st ops = run b e2 st ops.
Proof.
  intros Hd. revert st. unfold run.
  induction ops as [|op ops IH]; intros st; [reflexivity|]. cbn [foldl].
  rewrite <- IH. f_equal. destruct op; cbn [step]; [|reflexivity|reflexivity].
  now rewrite (res_setHeader_digest b e1 e2).
Qed.

Lemma digest_of_class b : digest b (Some (md5Base64 b)) = digest b None.
Proof. unfold digest. now destruct (md5Base64 b). Qed.

(** X14. The checks of the exported function, in the order the code
    makes them. Any number of arguments other than two raises a
    RangeError and nothing else is looked at; with two arguments, a
    second one that is not a Buffer raises the TypeError that prints it,
    whatever the first one is; a first one that is not a response
    raises the TypeError of [main]; the call attaches, with no digest
    given, exactly when the arguments are a response and a Buffer. *)
Theorem exported_function_checks (args : list JSValue) :
  (length args <> 2 ->
   exports_injectBody inspectWithKind args =
     inl (RangeError ("Expected 2 arguments (<http.ServerResponse>, <Buffer>), but got "
                      ++ count_or_no (Z.of_nat (length args)) ++ " arguments."))) /\
  (forall res v, args = [res; v] -> (forall b, v <> JBuffer b) ->
   exports_injectBody inspectWithKind args =
     inl (TypeError ("Expected a code to inject to HTML <body>s (<Buffer>), but got "
                     ++ inspectWithKind v ++ "."))) /\
  (forall res b, args = [res; JBuffer b] -> (forall h, res <> JResponse h) ->
   exports_injectBody inspectWithKind args =
     inl (TypeError ("Expected a ServerResponse object, but got "
                     ++ inspectWithKind res ++ "."))) /\
  (forall st, exports_injectBody inspectWithKind args = inr st <->
   exists h b, args = [JResponse h; JBuffer b] /\ st = main b None h).
Proof.
  split; [|split; [|split]].
  - intros Hlen. destruct args as [|a [|b [|c r]]]; try reflexivity. now elim Hlen.
  - intros res v -> Hv. cbn. destruct v as [h|b|p]; try reflexivity. now elim (Hv b).
  - intros res b -> Hres. cbn. destruct res as [h|b'|p]; try reflexivity. now elim (Hres h).
  - intros st. split.
    + destruct args as [|a [|v [|c r]]]; try discriminate. cbn.
      destruct v as [h|b|p]; try discriminate.
      destruct a as [h|b'|p]; try discriminate. cbn. intros [= <-]. eauto.
    + intros (h & b & -> & ->). reflexivity.
Qed.


(** X18. The constructor's own checks: any number of arguments other
    than one raises a RangeError; one argument that is not a Buffer
    raises the TypeError that prints it; and it returns a function
    exactly when given one Buffer. *)
Theorem constructor_checks (args : list JSValue) :
  (length args <> 1 ->
   InjectBody_new inspectWithKind args =
     inl (RangeError ("Expected 1 argument (<Buffer>), but got "
                      ++ count_or_no (Z.of_nat (length args)) ++ " arguments."))) /\
  (forall v, args = [v] -> (forall b, v <> JBuffer b) ->
   InjectBody_new inspectWithKind args =
     inl (TypeError ("Expected a code to inject to HTML <body>s (<Buffer>), but got "
                     ++ inspectWithKind v ++ "."))) /\
  ((exists f, InjectBody_new inspectWithKind args = inr f) <-> exists b, args = [JBuffer b]).
Proof.
  split; [|split].
  - intros Hlen. destruct args as [|a [|c r]]; try reflexivity. now elim Hlen.
  - intros v -> Hv. cbn. destruct v as [h|b|p]; try reflexivity. now elim (Hv b).
  - split.
    + intros [f Hf]. destruct args as [|a [|c r]]; try discriminate.
      destruct a as [h|b|p]; try discriminate. eauto.
    + intros [b ->]. cbn. eauto.
Qed.

End ExportsProperties.

(** * Concrete traces, with the sample collaborators *)

Module Traces.

Import Sample.

Local Abbreviation attached payload := (injectBody ∅ payload).

(** ** The codec *)

Example toString_test_payload :
  toString (bytes "a🐠蓺") = [0x61; 0xD83D; 0xDC20; 0x84FA]%N.
Proof. vm_compute. reflexivity. Qed.

Example from_string_roundtrip :
  Buffer_from_string (toString (bytes "<body>a🐠蓺</body>")) = bytes "<body>a🐠蓺</body>".
Proof. vm_compute. reflexivity. Qed.

Example toString_invalid_byte :
  Buffer_from_string (toString [Byte.xff]) = [Byte.xef; Byte.xbf; Byte.xbd].
Proof. vm_compute. reflexivity. Qed.

Example md5Base64_empty : sample_md5Base64 [] = "1B2M2Y8AsgTpgAmY7PhCfg==".
Proof. vm_compute. reflexivity. Qed.

(** ** The scenarios of the repository's tests *)

Example test_html :
  let st := run (bytes "a🐠蓺") None (attached (bytes "a🐠蓺"))
              [SetHeader "Content-Type" (HStr "text/html");
               SetHeader "Content-Length" (HStr "39");
               SetHeader "Etag" (HStr ("W/" ++ dq ++ "5b61d9cd-2f857" ++ dq));
               End (EData (DBuf (bytes "<html><head></head><body></body></html>"))) []] in
  sent st = [DEnd (bytes "<html><head></head><body>a🐠蓺</body></html>") []] /\
  headers st !! "content-length" = Some (HStr "47") /\
  headers st !! "etag" =
    Some (HStr ("W/" ++ dq ++ "5b61d9cd-2f857" ++ dq ++ "jPlSGGNXwOl7hMqK2ky1/A==")).
Proof. vm_compute. repeat split; reflexivity. Qed.

Example test_double_body :
  let h : gmap string HeaderValue :=
    {[ "content-type" := HStr "text/html"; "content-length" := HStr "64";
       "etag" := HStr "abc" ]} in
  let st := run [Byte.x07] None (main [Byte.x07] None h)
              [SetHeader "unrelated" (HStr "header");
               SetHeader "SET-COOKIE" (HArr ["type=ninja"; "language=javascript"]);
               End (EData (DStr (text ("<html><head></head><body class=" ++ dq ++ "foo" ++ dq
                                       ++ "></body><body></body></html>")))) []] in
  delivered st = bytes ("<html><head></head><body class=" ++ dq ++ "foo" ++ dq ++ ">")
                 ++ [Byte.x07] ++ bytes "</body><body></body></html>" /\
  headers st !! "etag" = Some (HStr "abciedOZAuMRiV6Kd4GFnlNXQ==") /\
  headers st !! "content-length" = Some (HStr "65") /\
  injections st = 1.
Proof. vm_compute. repeat split; reflexivity. Qed.

Example test_no_content_length :
  let h : gmap string HeaderValue := {[ "content-type" := HStr "text/html" ]} in
  let st := run (bytes tab_newline_smiley) None (main (bytes tab_newline_smiley) None h)
              [Write (DStr (text "<")) [];
               Write (DStr (text "BODY>")) [AFn 1];
               Write (DStr (text "</BODY>")) [AFn 2];
               End (EFn 3) []] in
  delivered st = bytes ("<BODY>" ++ tab_newline_smiley ++ "</BODY>") /\
  headers st !! "etag" = None /\ called st = [1].
Proof. vm_compute. repeat split; reflexivity. Qed.

Example test_non_utf8_encoding :
  let h : gmap string HeaderValue := {[ "content-type" := HStr "text/html" ]} in
  let st := run (bytes "_") None (main (bytes "_") None h)
              [Write (DStr (text "🌊🏄‍🌊")) [AStr "ascii"]] in
  emitted st =
    ["HTML must be UTF-8 encoded https://github.com/w3c/html/pull/1273, but encoded in ascii."] /\
  sent st = [] /\ buffers st = [].
Proof. vm_compute. repeat split; reflexivity. Qed.

Example test_plain_text :
  let h : gmap string HeaderValue :=
    {[ "content-length" := HNum 2; "etag" := HStr "original-etag" ]} in
  let st := run (bytes "c") None (main (bytes "c") None h)
              [SetHeader "content-type" (HStr "text/plain");
               Write (DStr (text "a")) []; End (EData (DStr (text "b"))) []] in
  delivered st = bytes "ab" /\
  headers st !! "etag" = Some (HStr "original-etag") /\
  headers st !! "content-length" = Some (HNum 2).
Proof. vm_compute. repeat split; reflexivity. Qed.

Example test_plain_text_with_body :
  let h : gmap string HeaderValue :=
    {[ "content-type" := HStr "text/plain"; "content-length" := HNum 6 ]} in
  let st := run (bytes "</body>") None (main (bytes "</body>") None h)
              [End (EData (DStr (text "<body>"))) []] in
  sent st = [DEnd (bytes "<body>") []] /\ injections st = 0.
Proof. vm_compute. repeat split; reflexivity. Qed.

Example test_negative_content_length :
  let st := run (bytes "?") None (attached (bytes "?"))
              [html_type; SetHeader "content-length" (HStr "-1")] in
  emitted st =
    ["According to RFC7230, Content-Length header must be a non-negative integer https://tools.ietf.org/html/rfc7230#section-3.3.2, but it was '-1'."] /\
  headers st !! "content-length" = None.
Proof. vm_compute. repeat split; reflexivity. Qed.

Example test_InjectBody_class :
  let h : gmap string HeaderValue :=
    {[ "content-type" := HStr "text/html"; "etag" := HStr "qwerty" ]} in
  let st := run (bytes "A") (Some (md5Base64 (bytes "A"))) (InjectBody (bytes "A") h)
              [End (EData (DStr (text "<body></Body>"))) []] in
  headers st !! "etag" = Some (HStr "qwertyf8VicOenD6gaWTW3Lqy+KQ==") /\
  delivered st = bytes "<body>A</Body>".
Proof. vm_compute. repeat split; reflexivity. Qed.

(** [parseComplete] starts a new document: when the tag arrives in the
    chunk passed to [end] after an earlier write, [endIndex] counts from
    the start of that chunk while the splice counts from the start of the
    backlog. *)
Example tag_in_end_after_a_write :
  let st := run (bytes "X") None (attached (bytes "X"))
              [html_type; Write (DStr (text "<html>")) [];
               End (EData (DStr (text "<body></body></html>"))) []] in
  sent st = [DEnd (bytes "<html>X<body></body></html>") []].
Proof. vm_compute. reflexivity. Qed.

(** ** The claims on concrete inputs *)

(** C1, at an input where the code departs from it. The response is
    classified Html, [<body>] arrives in a [write] and the rest in [end]:
    the payload is spliced in after the tag, but the completion call is
    cut to [len] bytes and the chunk passed to [end] is lost. *)
Theorem body_after_injection_is_cut :
  let st := run (bytes "X") None (attached (bytes "X"))
              [html_type; Write (DStr (text "<body>")) [];
               End (EData (DStr (text "</body>"))) []] in
  injections st = 1 /\
  buffers st = [bytes "<body>X"; bytes "</body>"] /\ len st = 7 /\
  sent st = [DEnd (bytes "<body>X") []] /\
  delivered st <> bytes "<body>X</body>".
Proof. vm_compute. repeat split; try reflexivity. discriminate. Qed.

(** After text/html, a content-type with another media type does not
    take the classification back: [isHtml] stays set, and an etag set
    afterwards is still suffixed. *)
Lemma content_type_after_html_keeps_html :
  let st := run (bytes "X") None (attached (bytes "X")) [html_type] in
  let st' := fst (res_setHeader (bytes "X") None "content-type" (HStr "text/plain") st) in
  parse_type "text/plain" = Some "text/plain" /\
  isHtml st' = true /\ parser st' = None /\
  headers (fst (res_setHeader (bytes "X") None "etag" (HStr "abc") st')) !! "etag" =
    Some (HStr "abcAhKbuGEGHRoFLFkuLcazgw==") /\
  ~ (forall st s type,
       parse_type s = Some type -> type <> "text/html" ->
       isHtml (fst (res_setHeader (bytes "X") None "content-type" (HStr s) st)) = false).
Proof.
  intros st st'.
  split; [reflexivity|]. split; [reflexivity|]. split; [reflexivity|].
  split; [vm_compute; reflexivity|].
  intros H.
  assert (Hne : "text/plain" <> "text/html") by discriminate.
  specialize (H st "text/plain" "text/plain" eq_refl Hne).
  vm_compute in H. discriminate H.
Qed.

(** ** Instances of the general theorems *)

Lemma content_length_mutation_witness :
  let st := run (bytes "c") None (attached (bytes "c"))
              [SetHeader "content-type" (HStr "text/plain")] in
  let st_html := run (bytes "c") None (attached (bytes "c")) [html_type] in
  isHtml st = false /\
  res_setHeader (bytes "c") None "Content-Length" (HStr "2") st = (st, Returned) /\
  headers (fst (res_setHeader (bytes "c") None "Content-Length" (HStr "2") st))
    !! "content-length" = None /\
  headers (fst (res_setHeader (bytes "c") None "Content-Length" (HStr "2") st_html))
    !! "content-length" = Some (HStr "3").
Proof.
  intros st st_html.
  pose proof (content_length_mutation (bytes "c") None st "Content-Length" (HStr "2") 2
                eq_refl eq_refl eq_refl ltac:(lia)) as [_ H].
  pose proof (content_length_mutation (bytes "c") None st_html "Content-Length" (HStr "2") 2
                eq_refl eq_refl eq_refl ltac:(lia)) as [Hhtml _].
  split; [reflexivity|]. split; [exact (H eq_refl)|]. split.
  - rewrite (H eq_refl). vm_compute. reflexivity.
  - exact (Hhtml eq_refl eq_refl).
Defined.

Lemma content_type_classifies_witness :
  let value := "text/html; charset=utf-8" in
  let h : gmap string HeaderValue := {[ "content-type" := HStr value ]} in
  let st := main (bytes "X") None h in
  let document := End (EData (DStr (text "<body></body>"))) [] in
  parse_type value = Some "text/html" /\
  isHtml st = false /\ parser st = Some Tokenizer_new /\
  delivered (run (bytes "X") None st [document]) = bytes "<body></body>" /\
  isHtml (fst (res_setHeader (bytes "X") None "content-type" (HStr value) st)) = true /\
  delivered (run (bytes "X") None (attached (bytes "X"))
               [SetHeader "content-type" (HStr value); document]) = bytes "<body>X</body>" /\
  parser (fst (res_setHeader (bytes "X") None "Content-Type" (HStr "text/plain")
                 (attached (bytes "X")))) = None /\
  parser (main (bytes "X") None {[ "content-type" := HStr "text/plain" ]})
    = Some Tokenizer_new.
Proof.
  intros value h st document.
  pose proof (content_type_classifies (bytes "X") None) as [Hset Hmain].
  assert (Hct : h !! "content-type" = Some (HStr value)) by (vm_compute; reflexivity).
  assert (Hne : HStr value <> HStr "text/html") by discriminate.
  destruct (Hmain h (HStr value) Hct) as (Hp & _ & Hraw).
  destruct (Hraw Hne) as [Hh Hsibling].
  split; [reflexivity|]. split; [exact Hh|]. split; [exact Hp|].
  split; [vm_compute; reflexivity|].
  split; [exact (Hsibling value eq_refl eq_refl)|].
  split; [vm_compute; reflexivity|]. split.
  - destruct (Hset (attached (bytes "X")) "Content-Type" "text/plain" eq_refl)
      as (_ & Hplain & _).
    assert (Hne' : "text/plain" <> "text/html") by discriminate.
    exact (proj1 (proj2 (Hplain "text/plain" eq_refl Hne'))).
  - assert (Hct' : ({[ "content-type" := HStr "text/plain" ]} : gmap string HeaderValue)
                     !! "content-type" = Some (HStr "text/plain"))
      by (vm_compute; reflexivity).
    exact (proj1 (Hmain _ (HStr "text/plain") Hct')).
Defined.

Lemma etag_is_suffixed_witness :
  let st := run [Byte.x07] None (attached [Byte.x07]) [html_type] in
  headers (fst (res_setHeader [Byte.x07] None "ETag" (HStr "abc") st)) !! "etag" =
    Some (HStr "abciedOZAuMRiV6Kd4GFnlNXQ==") /\
  headers (main [Byte.x07] None
             {[ "content-type" := HStr "text/html"; "etag" := HStr "abc" ]}) !! "etag" =
    Some (HStr "abciedOZAuMRiV6Kd4GFnlNXQ==") /\
  headers (run [Byte.x07] None st [Write (DStr (text "no tag here")) []; End ENone []]) =
    headers st.
Proof.
  intros st.
  pose proof (etag_is_suffixed_with_digest [Byte.x07] None) as (Hset & Hmain & Hrun & _).
  split; [|split].
  - exact (proj2 (Hset st "ETag" "abc" eq_refl eq_refl)).
  - refine (proj2 (Hmain _ "abc" _ _)); vm_compute; reflexivity.
  - apply Hrun. reflexivity.
Defined.

Lemma invalid_content_length_witness :
  let st := run (bytes "?") None (attached (bytes "?")) [html_type] in
  emitted (fst (res_setHeader (bytes "?") None "content-length" (HStr "-1") st)) =
    emitted st ++ [RFC7230_message (HStr "-1")] /\
  headers (fst (res_setHeader (bytes "?") None "content-length" (HStr "-1") st)) = headers st.
Proof.
  intros st.
  assert (Hbad : forall z, Number (HStr "-1") = NInt z -> (z < 0)%Z).
  { intros z Hz. vm_compute in Hz. injection Hz as <-. reflexivity. }
  pose proof (invalid_content_length_raises_error (bytes "?") None st "content-length"
                (HStr "-1") eq_refl eq_refl Hbad) as (_ & He & Hh & _).
  split; assumption.
Defined.

Lemma non_utf8_write_witness :
  let st := run (bytes "_") None (attached (bytes "_")) [html_type] in
  res_write (bytes "_") (DStr (text "wave")) [AStr "ascii"] st =
    emit_error (encoding_message "ascii") st /\
  emitted (res_write (bytes "_") (DStr (text "wave")) [AFn 1] st) = emitted st.
Proof.
  intros st.
  pose proof (non_utf8_write_is_refused (bytes "_")) as [Hrefuse Hskip].
  split.
  - refine (proj1 (Hrefuse st (DStr (text "wave")) "ascii" [] eq_refl _ eq_refl)).
    discriminate.
  - refine (proj2 (Hskip st (DStr (text "wave")) [AFn 1] _)).
    right. exists 1, []. reflexivity.
Defined.

Lemma end_carries_a_cut_backlog_witness :
  let st := run (bytes "X") None (attached (bytes "X"))
              [Write (DStr (text "a")) []; SetHeader "content-type" (HStr "text/plain")] in
  parser st = None /\ buffers st = [bytes "a"] /\ len st = pending_bytes st /\
  sent (res_end (bytes "X") (EData (DStr (text "b"))) [] st) = [DEnd (bytes "a") []] /\
  buffers (res_end (bytes "X") (EData (DStr (text "b"))) [] st) = [bytes "a"; bytes "b"].
Proof.
  intros st.
  assert (Hne : buffers st <> []) by discriminate.
  pose proof (end_carries_a_cut_backlog (bytes "X") st (DStr (text "b")) []
                eq_refl eq_refl Hne eq_refl) as (Hsent & Hbuf & _).
  split; [reflexivity|]. split; [reflexivity|]. split; [reflexivity|].
  split; [exact Hsent|exact Hbuf].
Defined.

Lemma end_accumulation_witness :
  let st := run (bytes "X") None (attached (bytes "X"))
              [html_type; Write (DStr (text "<body>")) []] in
  parser st = None /\ len st = pending_bytes st /\
  len (res_end (bytes "X") (EData (DBuf (bytes "</body>"))) [] st) <>
  pending_bytes (res_end (bytes "X") (EData (DBuf (bytes "</body>"))) [] st).
Proof.
  intros st.
  pose proof (end_accumulation_keeps_len (bytes "X")) as [Hend _].
  split; [reflexivity|]. split; [reflexivity|].
  refine (proj2 (proj2 (Hend st (bytes "</body>") [] eq_refl eq_refl)) eq_refl _).
  discriminate.
Defined.

Lemma body_tag_before_html_witness :
  let st := attached (bytes "X") in
  let st' := res_write (bytes "X") (DStr (text "<body>")) [] st in
  parser st' = None /\ injections st' = 0 /\
  injections (run (bytes "X") None st'
                [html_type; End (EData (DStr (text "</body>"))) []]) = 0.
Proof.
  intros st st'.
  assert (Hfired : exists tag,
             In tag (fired st Tokenizer_new (to_buffer (DStr (text "<body>")))) /\
             tagName tag = "body").
  { exists (mkOpenTag "body" 5). split; [left|]; reflexivity. }
  pose proof (body_tag_before_html_ends_locator (bytes "X") None st (DStr (text "<body>")) []
                Tokenizer_new eq_refl eq_refl Hfired) as (Hoff & Hinj & _ & Hrun).
  split; [exact Hoff|]. split; [exact Hinj|]. exact (proj2 (Hrun _)).
Defined.

Lemma classification_is_monotone_witness :
  let st := run (bytes "X") None (attached (bytes "X")) [html_type] in
  let st' := fst (res_setHeader (bytes "X") None "content-type" (HStr "text/plain") st) in
  isHtml st = true /\ parser st' = None /\ isHtml st' = true /\
  headers (fst (res_setHeader (bytes "X") None "content-length" (HStr "2")
                  (run (bytes "X") None st' [Write (DStr (text "ab")) []])))
    !! "content-length" = Some (HStr "3").
Proof.
  intros st st'.
  pose proof (classification_is_monotone (bytes "X") None) as [_ H].
  assert (Hne : "text/plain" <> "text/html") by discriminate.
  destruct (H st "content-type" "text/plain" "text/plain" eq_refl eq_refl eq_refl Hne)
    as (Hoff & Hh & Hlater).
  split; [reflexivity|]. split; [exact Hoff|]. split; [exact Hh|].
  destruct (Hlater [Write (DStr (text "ab")) []]) as (_ & _ & Hcl).
  exact (Hcl "content-length" (HStr "2") 2%Z eq_refl eq_refl eq_refl ltac:(lia) eq_refl).
Defined.

End Traces.

(** * Instances of the further properties *)

Module Instances.

Import Sample.

Local Abbreviation attached payload := (injectBody ∅ payload).

Lemma single_end_inserts_payload_witness :
  let st := run (bytes "X") None (attached (bytes "X")) [html_type] in
  exists pre post,
    bytes "<p><body></body>" = pre ++ post /\
    pre = bytes "<p><body>" /\
    sent (res_end (bytes "X") (EData (DBuf (bytes "<p><body></body>"))) [] st) =
      [DEnd (pre ++ bytes "X" ++ post) []].
Proof.
  intros st.
  assert (Hfirst : first_body (Parser_parseComplete Tokenizer_new (bytes "<p><body></body>"))
                     (mkOpenTag "body" 8)).
  { exists [mkOpenTag "p" 2], []. split; [reflexivity|]. split; [reflexivity|].
    constructor; [discriminate|constructor]. }
  exact (single_end_inserts_payload (bytes "X") st Tokenizer_new (bytes "<p><body></body>") []
           (mkOpenTag "body" 8) eq_refl eq_refl eq_refl eq_refl eq_refl Hfirst
           eq_refl eq_refl eq_refl).
Defined.



Lemma len_measures_backlog_witness :
  let st := run (bytes "X") None (attached (bytes "X"))
              [Write (DStr (text "<p>")) []; html_type; Write (DStr (text "hi")) []] in
  is_Some (parser st) /\ len st = pending_bytes st /\ pending_bytes st = 5.
Proof.
  intros st.
  assert (Hp : is_Some (parser st)) by (vm_compute; eauto).
  pose proof (len_measures_backlog_while_locating (bytes "X") None ∅
                [Write (DStr (text "<p>")) []; html_type; Write (DStr (text "hi")) []] Hp) as H.
  split; [exact Hp|]. split; [exact H|reflexivity].
Defined.

Lemma nothing_sent_while_locating_witness :
  let st := run (bytes "X") None (attached (bytes "X"))
              [html_type; Write (DStr (text "<p>")) [AFn 1]; Write (DStr (text "<bo")) []] in
  sent st = [] /\ injections st = 0.
Proof.
  intros st. apply (nothing_sent_while_locating (bytes "X") None ∅).
  vm_compute. eauto.
Defined.

Lemma cleared_locator_witness :
  let st := run (bytes "X") None (attached (bytes "X"))
              [html_type; Write (DStr (text "<body>")) []] in
  parser st = None /\ buffers st = [bytes "<body>X"] /\
  delivered (run (bytes "X") None st
               [Write (DStr (text "a")) []; End (EData (DStr (text "</body>"))) []]) =
  bytes "<body>Xa</body>".
Proof.
  intros st. split; [reflexivity|]. split; [reflexivity|].
  assert (Hws : Forall (fun w : Data * list Arg => refused_encoding st (snd w) = None)
                  [(DStr (text "a"), [])])
    by (constructor; [reflexivity|constructor]).
  assert (Hne : [(DStr (text "a"), @nil Arg)] <> [] \/ buffers st = [])
    by (left; discriminate).
  exact (cleared_locator_holds_nothing_back (bytes "X") None [(DStr (text "a"), [])] st
           (DStr (text "</body>")) [] eq_refl eq_refl (or_introl eq_refl) Hne Hws eq_refl).
Defined.

Lemma not_html_keeps_every_byte_witness :
  let ops := [Write (DStr (text "<body>")) []; SetHeader "x-powered-by" (HStr "me");
              Write (DBuf (bytes "b")) [AFn 1]] in
  let st := run (bytes "X") None (attached (bytes "X")) ops in
  delivered st ++ concat (buffers st) = bytes "<body>b" /\
  delivered (res_end (bytes "X") (EData (DStr (text "c"))) [] st) = bytes "<body>bc".
Proof.
  intros ops st.
  assert (Hne : no_end ops = true) by reflexivity.
  assert (Hh : isHtml (run (bytes "X") None (main (bytes "X") None ∅) ops) = false)
    by (vm_compute; reflexivity).
  assert (Hw : written ops = Some (bytes "<body>b")) by (vm_compute; reflexivity).
  destruct (not_html_keeps_every_byte (bytes "X") None ∅ ops (bytes "<body>b") Hne Hw Hh)
    as [Hheld Hend].
  split; [exact Hheld|].
  apply (Hend (DStr (text "c")) [] (bytes "c")); [vm_compute; reflexivity|].
  right. reflexivity.
Defined.

Lemma writes_then_end_witness :
  length (end_calls (run (bytes "X") None (attached (bytes "X"))
                       ([Write (DStr (text "a")) []; Write (DStr (text "b")) [AStr "utf8"]]
                        ++ [End (EData (DStr (text "c"))) []]))) = 1.
Proof.
  apply (writes_then_end_complete_once (bytes "X") None); try reflexivity.
  constructor; [eexists _, _; split; reflexivity|].
  constructor; [eexists _, _; split; reflexivity|constructor].
Defined.

Lemma once_ending_only_end_witness :
  let st := run (bytes "X") None (attached (bytes "X")) [html_type; End ENone []] in
  let ops := [Write (DStr (text "late")) []; SetHeader "etag" (HStr "e"); End (EFn 2) []] in
  willEnd (run (bytes "X") None st ops) = true /\
  exists ends, sent (run (bytes "X") None st ops) = sent st ++ ends /\
               forallb is_end ends = true.
Proof.
  intros st ops. exact (once_ending_only_end (bytes "X") None ops st eq_refl).
Defined.

Lemma write_acknowledges_once_witness :
  let st := run (bytes "X") None (attached (bytes "X")) [html_type] in
  let st' := res_write (bytes "X") (DStr (text "<p>")) [AStr "utf8"; AFn 7] st in
  (is_Some (parser st) /\ willEnd st = false /\ sent st' = sent st /\
   called st' = called st ++ [7]) \/
  ((parser st = None \/ willEnd st = true) /\ called st' = called st /\
   exists c, sent st' = sent st ++ [c] /\ rest_of c = [AStr "utf8"; AFn 7]).
Proof.
  intros st st'.
  exact (write_acknowledges_once (bytes "X") (DStr (text "<p>")) [AStr "utf8"; AFn 7] st
           eq_refl).
Defined.

Lemma attach_leaves_non_html_alone_witness :
  let h : gmap string HeaderValue :=
    {[ "content-type" := HStr "text/plain"; "content-length" := HStr "5";
       "etag" := HStr "abc" ]} in
  let st := main (bytes "X") None h in
  headers st = h /\ isHtml st = false /\ parser st = Some Tokenizer_new.
Proof.
  intros h st.
  destruct (attach_leaves_non_html_alone (bytes "X") None h) as [_ H].
  destruct H as (Hh & Hi & Hp & _).
  - vm_compute. reflexivity.
  - vm_compute. discriminate.
  - split; [exact Hh|]. split; [exact Hi|exact Hp].
Defined.

Lemma attach_adjusts_content_length_witness :
  let h : gmap string HeaderValue :=
    {[ "content-type" := HStr "text/html"; "content-length" := HStr "39" ]} in
  let st := main (bytes "a🐠蓺") None h in
  headers st !! "content-length" = Some (HStr "47") /\ emitted st = [].
Proof.
  intros h st.
  assert (Hcl : h !! "content-length" = Some (HStr "39")) by (vm_compute; reflexivity).
  assert (Hct : h !! "content-type" = Some (HStr "text/html")) by (vm_compute; reflexivity).
  destruct (attach_adjusts_content_length (bytes "a🐠蓺") None h (HStr "39") Hcl) as [H _].
  destruct (H Hct) as [Hgood _].
  exact (Hgood 39%Z eq_refl ltac:(lia) eq_refl).
Defined.

Lemma utf8_anywhere_is_accepted_witness :
  let st := run (bytes "X") None (attached (bytes "X")) [html_type] in
  utf8_regex_test "x-UTF-8-y" = true /\
  refused_encoding st [AStr "x-UTF-8-y"] = None /\
  emitted (res_write (bytes "X") (DStr (text "hi")) [AStr "x-UTF-8-y"] st) = emitted st.
Proof.
  intros st.
  exact (utf8_anywhere_is_accepted (bytes "X") st (DStr (text "hi")) "x-" "UTF-8" "-y" []
           (or_intror eq_refl)).
Defined.

Lemma refused_end_still_ends_witness :
  let st := run (bytes "X") None (attached (bytes "X"))
              [html_type; Write (DStr (text "<p>")) []] in
  let st' := res_end (bytes "X") (EData (DStr (text "bye"))) [AStr "base64"] st in
  sent st' = [] /\ willEnd st' = true /\ emitted st' = [encoding_message "base64"] /\
  exists chunk, sent (res_write (bytes "X") (DStr (text "again")) [] st') = [DEnd chunk []].
Proof.
  intros st st'.
  assert (Hne : "base64" <> "") by discriminate.
  destruct (refused_end_still_ends (bytes "X") st (DStr (text "bye")) "base64" []
              eq_refl Hne eq_refl) as (Hst & Hs & Hw & Hnext).
  split; [exact Hs|]. split; [exact Hw|]. split; [reflexivity|].
  exact (Hnext (DStr (text "again")) [] eq_refl).
Defined.

Lemma headers_stay_out_of_the_body_witness :
  let st := run (bytes "X") None (attached (bytes "X"))
              [html_type; Write (DStr (text "<p>")) []] in
  let v := HArr ["type=ninja"; "language=javascript"] in
  let st' := fst (res_setHeader (bytes "X") None "Content-Length" v st) in
  buffers st' = buffers st /\ len st' = len st /\
  headers st' !! "content-length" = Some v /\
  headers st' !! "content-type" = Some (HStr "text/html").
Proof.
  intros st v st'.
  destruct (headers_stay_out_of_the_body (bytes "X") None st "Content-Length" v)
    as [(Hb & Hl & _) H].
  destruct (H (or_introl eq_refl)) as (_ & Hv & Hother).
  split; [exact Hb|]. split; [exact Hl|]. split; [exact Hv|].
  assert (Hne : "content-type" <> toLowerCase "Content-Length") by discriminate.
  exact (eq_trans (Hother "content-type" Hne) eq_refl).
Defined.

Lemma plain_content_type_throws_witness :
  let st := run (bytes "X") None (attached (bytes "X"))
              [SetHeader "content-type" (HStr "text/plain")] in
  let st' := run (bytes "X") None st [Write (DStr (text "a")) []] in
  res_setHeader (bytes "X") None "Content-Type" (HStr "application/json") st' =
    (st', Thrown "TypeError") /\
  headers st' !! "content-type" = Some (HStr "text/plain").
Proof.
  intros st st'. split; [|reflexivity].
  assert (Hne : "application/json" <> "text/html") by discriminate.
  exact (plain_content_type_after_locator_throws (bytes "X") None st
           [Write (DStr (text "a")) []] "Content-Type" "application/json" "application/json"
           eq_refl eq_refl eq_refl Hne).
Defined.

Lemma exported_function_checks_witness :
  exports_injectBody sample_inspectWithKind [] =
    inl (RangeError "Expected 2 arguments (<http.ServerResponse>, <Buffer>), but got no arguments.") /\
  exports_injectBody sample_inspectWithKind [JOther "1"; JOther "2"; JOther "3"] =
    inl (RangeError "Expected 2 arguments (<http.ServerResponse>, <Buffer>), but got 3 arguments.") /\
  exports_injectBody sample_inspectWithKind [JResponse ∅; JOther "Uint32Array []"] =
    inl (TypeError "Expected a code to inject to HTML <body>s (<Buffer>), but got Uint32Array [].") /\
  exports_injectBody sample_inspectWithKind [JOther "Set {}"; JBuffer (bytes "X")] =
    inl (TypeError "Expected a ServerResponse object, but got Set {}.").
Proof.
  split; [|split; [|split]].
  - refine (proj1 (exported_function_checks sample_inspectWithKind []) _). discriminate.
  - refine (proj1 (exported_function_checks sample_inspectWithKind
                     [JOther "1"; JOther "2"; JOther "3"]) _). discriminate.
  - refine (proj1 (proj2 (exported_function_checks sample_inspectWithKind
                            [JResponse ∅; JOther "Uint32Array []"])) _ _ eq_refl _).
    discriminate.
  - refine (proj1 (proj2 (proj2 (exported_function_checks sample_inspectWithKind
                                   [JOther "Set {}"; JBuffer (bytes "X")]))) _ _ eq_refl _).
    discriminate.
Defined.


Lemma constructor_checks_witness :
  InjectBody_new sample_inspectWithKind [] =
    inl (RangeError "Expected 1 argument (<Buffer>), but got no arguments.") /\
  InjectBody_new sample_inspectWithKind [JOther "Symbol(x)"] =
    inl (TypeError "Expected a code to inject to HTML <body>s (<Buffer>), but got Symbol(x).").
Proof.
  split.
  - refine (proj1 (constructor_checks sample_inspectWithKind []) _). discriminate.
  - refine (proj1 (proj2 (constructor_checks sample_inspectWithKind [JOther "Symbol(x)"]))
              _ eq_refl _).
    discriminate.
Defined.

End Instances.
